(** * Grid-Image-Slicer: the boundary-driven slicing engine

    A shallow embedding of the TypeScript sources
      - [src/App.tsx]                      ([generateBoundaries], [handleSlice],
                                            and the [GridEditor] drag handler
                                            [handleMouseMove] in the same file),
      - [src/components/SlicePreview.tsx]  ([downloadAll], [downloadOne]),
    and the properties the specification states about them.

    JavaScript numbers.  The program is written once, over the interface
    [JSNumber] of the arithmetic it uses, and read at two instances:
      - [binary64]: IEEE 754 double precision, the arithmetic the program
        runs on (Rocq's primitive floats);
      - [exactQ]: the rationals, the exact ("real") arithmetic in which the
        specification words its numeric statements.
    Statements that only follow the shape of the code are proved for every
    instance; statements that need the order or field laws are proved in
    exact arithmetic (the clamp of the drag handler in binary64 as well),
    and concrete runs are evaluated in binary64.  Division by zero, which
    exact arithmetic has no value for, is 0 in [exactQ]; no statement
    below depends on that value.

    Integer-valued numbers the code only counts with (loop counters, array
    lengths, [index], [row], [col]) are [Z]; they enter the arithmetic
    through [of_int].

    Effects.  Reading [arr[i].field] past the end of an array throws; a
    function that can throw returns a [Result].  The canvas all cells of
    one slicing pass share is threaded through the loops as state.  The
    browser's part - whether a 2D context exists, what the encoder makes
    of a canvas, how a blob reads as a data URL - is a parameter
    ([Browser]).  [handleSlice] is modelled as one uninterrupted run:
    the [await]s of its loop yield to nothing that touches its inputs,
    and the closing [setTimeout] (a scroll) is left out. *)

From Stdlib Require Import ZArith QArith Qminmax List String Ascii Bool Lia.
From Stdlib Require Import DecimalString DecimalZ Qabs Sorted Lqa.
From Stdlib Require Import Floats Uint63.
Import ListNotations.
Local Open Scope list_scope.

(* ================================================================== *)
(** * Numbers *)

Declare Scope js_scope.
Delimit Scope js_scope with js.

Class JSNumber (num : Type) : Type := {
  lit : Q -> num;               (* the number a decimal literal denotes *)
  of_int : Z -> num;            (* an integer-valued number *)
  num_add : num -> num -> num;
  num_sub : num -> num -> num;
  num_mul : num -> num -> num;
  num_div : num -> num -> num;
  num_le : num -> num -> bool;  (* a <= b *)
  num_lt : num -> num -> bool;  (* a < b *)
  Math_max : num -> num -> num;
  Math_min : num -> num -> num
}.

Notation "a + b" := (num_add a b) : js_scope.
Notation "a - b" := (num_sub a b) : js_scope.
Notation "a * b" := (num_mul a b) : js_scope.
Notation "a / b" := (num_div a b) : js_scope.
Notation "a <=? b" := (num_le a b) (at level 70) : js_scope.
Notation "a <? b" := (num_lt a b) (at level 70) : js_scope.
Notation "a >? b" := (num_lt b a) (at level 70) : js_scope.

(** ** Exact arithmetic *)

#[export] Instance exactQ : JSNumber Q := {
  lit q := q;
  of_int z := inject_Z z;
  num_add := Qplus;
  num_sub := Qminus;
  num_mul := Qmult;
  num_div := Qdiv;
  num_le := Qle_bool;
  num_lt a b := negb (Qle_bool b a);
  Math_max := Qmax;
  Math_min := Qmin
}.

(** ** IEEE 754 binary64 *)

Module Binary64.

(** An integer as a double: exact for |z| < 2^53, which covers every
    counter and literal of the program. *)
Definition of_Z (z : Z) : float :=
  match z with
  | Z0 => PrimFloat.zero
  | Zpos _ => PrimFloat.of_uint63 (Uint63.of_Z z)
  | Zneg p => PrimFloat.opp (PrimFloat.of_uint63 (Uint63.of_Z (Zpos p)))
  end.

(** A decimal literal denotes the double nearest to its value; that is
    the correctly rounded quotient of numerator and denominator. *)
Definition of_literal (q : Q) : float :=
  PrimFloat.div (of_Z (Qnum q)) (of_Z (Zpos (Qden q))).

(** [Math.max]: NaN if an argument is NaN, and +0 counts as larger
    than -0. *)
Definition max (a b : float) : float :=
  if PrimFloat.is_nan a || PrimFloat.is_nan b then PrimFloat.nan
  else if PrimFloat.ltb a b then b
  else if PrimFloat.ltb b a then a
  else if PrimFloat.is_zero a then PrimFloat.add a b   (* +0 unless both are -0 *)
  else a.

(** [Math.min]: NaN if an argument is NaN, and -0 counts as smaller
    than +0. *)
Definition min (a b : float) : float :=
  if PrimFloat.is_nan a || PrimFloat.is_nan b then PrimFloat.nan
  else if PrimFloat.ltb a b then a
  else if PrimFloat.ltb b a then b
  else if PrimFloat.is_zero a
       then PrimFloat.opp (PrimFloat.add (PrimFloat.opp a) (PrimFloat.opp b))
  else a.

End Binary64.

#[export] Instance binary64 : JSNumber float := {
  lit := Binary64.of_literal;
  of_int := Binary64.of_Z;
  num_add := PrimFloat.add;
  num_sub := PrimFloat.sub;
  num_mul := PrimFloat.mul;
  num_div := PrimFloat.div;
  num_le := PrimFloat.leb;
  num_lt := PrimFloat.ltb;
  Math_max := Binary64.max;
  Math_min := Binary64.min
}.

(* ================================================================== *)
(** * Control: exceptions, array access, [for] loops *)

(** A computation either returns or throws.  The only exception the
    modelled code can raise itself is the [TypeError] of reading a
    property of [undefined], which is what indexing an array out of
    range and then selecting a field does. *)
Inductive Result (A : Type) : Type :=
| Ok (a : A)
| TypeError.
Arguments Ok {A} a.
Arguments TypeError {A}.

Definition bind {A B} (m : Result A) (k : A -> Result B) : Result B :=
  match m with
  | Ok a => k a
  | TypeError => TypeError
  end.

Notation "x <- m ;; k" := (bind m (fun x => k))
  (at level 61, m at next level, right associativity).
Notation "' pat <- m ;; k" := (bind m (fun x => match x with pat => k end))
  (at level 61, pat pattern, m at next level, right associativity).

(** [arr[i]], as an optional value: [None] is [undefined]. *)
Definition at_index {A} (arr : list A) (i : Z) : option A :=
  if (i <? 0)%Z then None else nth_error arr (Z.to_nat i).

(** [arr[i].field] or [arr[i][k]]: the element must exist. *)
Definition get {A} (arr : list A) (i : Z) : Result A :=
  match at_index arr i with
  | Some a => Ok a
  | None => TypeError
  end.

(** [arr.push(x)] *)
Definition push {A} (arr : list A) (x : A) : list A := arr ++ [x].

(** [arr.map((x, idx) => f(x, idx))], and the order in which
    [arr.forEach] visits. *)
Fixpoint mapi_from {A B} (i : Z) (f : A -> Z -> B) (arr : list A) : list B :=
  match arr with
  | [] => []
  | x :: rest => f x i :: mapi_from (i + 1) f rest
  end.

Definition mapi {A B} (f : A -> Z -> B) (arr : list A) : list B :=
  mapi_from 0 f arr.

(** [arr.length] *)
Definition len {A} (arr : list A) : Z := Z.of_nat (List.length arr).

(** [for (let i = from; i < bound; i++) body], [n] iterations left. *)
Fixpoint for_from {S} (n : nat) (i : Z) (body : Z -> S -> S) (s : S) : S :=
  match n with
  | O => s
  | Datatypes.S n' => for_from n' (i + 1) body (body i s)
  end.

Definition for_lt {S} (bound : Z) (body : Z -> S -> S) (s : S) : S :=
  for_from (Z.to_nat bound) 0 body s.

(** The same loop around a body that may throw. *)
Fixpoint forM_from {S} (n : nat) (i : Z) (body : Z -> S -> Result S) (s : S)
  : Result S :=
  match n with
  | O => Ok s
  | Datatypes.S n' => s' <- body i s ;; forM_from n' (i + 1) body s'
  end.

Definition forM_lt {S} (bound : Z) (body : Z -> S -> Result S) (s : S)
  : Result S :=
  forM_from (Z.to_nat bound) 0 body s.

(* ================================================================== *)
(** * Data model ([types.ts]) *)

Record Boundary (num : Type) : Type := mkBoundary {
  start : num;   (* percentage 0-100 *)
  end_ : num     (* percentage 0-100; the source's field [end] *)
}.
Arguments mkBoundary {num} _ _.
Arguments start {num} _.
Arguments end_ {num} _.

Record GridLines (num : Type) : Type := mkGridLines {
  horizontal : list (Boundary num);
  vertical : list (Boundary num)
}.
Arguments mkGridLines {num} _ _.
Arguments horizontal {num} _.
Arguments vertical {num} _.

Record SliceResult : Type := mkSliceResult {
  dataUrl : string;
  index : Z;
  row : Z;
  col : Z
}.

(* ================================================================== *)
(** * BoundaryModel: [generateBoundaries] ([App.tsx], lines 32-49) *)

Section BoundaryModel.
Context {num : Type} {N : JSNumber num}.
Local Open Scope js_scope.

Definition generateBoundaries (count : Z) : list (Boundary num) :=
  let boundaries : list (Boundary num) := [] in
  let numBoundaries := (count + 1)%Z in
  let step := lit 100 / of_int count in
  let gutterHalfWidth := lit 1 in
  for_lt numBoundaries (fun i boundaries =>
    let pos := of_int i * step in
    if (i =? 0)%Z then
      push boundaries {| start := lit 0; end_ := lit 1.5 |}
    else if (i =? numBoundaries - 1)%Z then
      push boundaries {| start := lit 98.5; end_ := lit 100 |}
    else
      push boundaries {| start := pos - gutterHalfWidth;
                         end_ := pos + gutterHalfWidth |})
    boundaries.

End BoundaryModel.

(* ================================================================== *)
(** * The browser: images, the rasterizing surface, the encoder *)

(** [HTMLImageElement], as far as the program reads it. *)
Record HTMLImageElement (num : Type) : Type := mkImage {
  naturalWidth : num;
  naturalHeight : num;
  src : string
}.
Arguments mkImage {num} _ _ _.
Arguments naturalWidth {num} _.
Arguments naturalHeight {num} _.
Arguments src {num} _.

(** What has been drawn on a canvas since its bitmap was last reset. *)
Inductive CanvasOp (num : Type) : Type :=
| ClearRect (x y w h : num)
| DrawImage (image : HTMLImageElement num) (sx sy sw sh dx dy dw dh : num).
Arguments ClearRect {num} _ _ _ _.
Arguments DrawImage {num} _ _ _ _ _ _ _ _ _.

Inductive SmoothingQuality : Type := low | medium | high.

(** A canvas with its 2D context.  [width] and [height] hold the numbers
    assigned to them; turning them into a whole number of pixels is the
    surface's business, and so part of the encoder below. *)
Record Canvas (num : Type) : Type := mkCanvas {
  width : num;
  height : num;
  imageSmoothingEnabled : bool;
  imageSmoothingQuality : SmoothingQuality;
  bitmap : list (CanvasOp num)
}.
Arguments mkCanvas {num} _ _ _ _ _.
Arguments width {num} _.
Arguments height {num} _.
Arguments imageSmoothingEnabled {num} _.
Arguments imageSmoothingQuality {num} _.
Arguments bitmap {num} _.

Definition Blob : Type := string.

(** The capabilities [handleSlice] asks of the browser.  The encoder is a
    function of the canvas it is given, the MIME type and the quality
    argument ([None] for [undefined]); [None] is the [null] blob of a
    failed encode. *)
Record Browser (num : Type) : Type := mkBrowser {
  getContext2d : bool;   (* whether [canvas.getContext('2d')] gives a context *)
  toBlob : Canvas num -> string -> option num -> option Blob;
  readAsDataURL : Blob -> string
}.
Arguments mkBrowser {num} _ _ _.
Arguments getContext2d {num} _.
Arguments toBlob {num} _ _ _ _.
Arguments readAsDataURL {num} _ _.

Section Surface.
Context {num : Type} {N : JSNumber num}.

(** [document.createElement('canvas')]: 300 x 150, default context state. *)
Definition createCanvas : Canvas num :=
  mkCanvas (lit 300) (lit 150) true low [].

(** [canvas.width = w]: assigning a dimension resets the bitmap and the
    context state. *)
Definition set_width (cv : Canvas num) (w : num) : Canvas num :=
  mkCanvas w (height cv) true low [].

(** [canvas.height = h] *)
Definition set_height (cv : Canvas num) (h : num) : Canvas num :=
  mkCanvas (width cv) h true low [].

(** [ctx.clearRect(x, y, w, h)] *)
Definition clearRect (cv : Canvas num) (x y w h : num) : Canvas num :=
  mkCanvas (width cv) (height cv) (imageSmoothingEnabled cv)
           (imageSmoothingQuality cv) (push (bitmap cv) (ClearRect x y w h)).

(** [ctx.imageSmoothingEnabled = b] *)
Definition set_imageSmoothingEnabled (cv : Canvas num) (b : bool) : Canvas num :=
  mkCanvas (width cv) (height cv) b (imageSmoothingQuality cv) (bitmap cv).

(** [ctx.imageSmoothingQuality = q] *)
Definition set_imageSmoothingQuality (cv : Canvas num) (q : SmoothingQuality)
  : Canvas num :=
  mkCanvas (width cv) (height cv) (imageSmoothingEnabled cv) q (bitmap cv).

(** [ctx.drawImage(image, sx, sy, sw, sh, dx, dy, dw, dh)] *)
Definition drawImage (cv : Canvas num) (image : HTMLImageElement num)
           (sx sy sw sh dx dy dw dh : num) : Canvas num :=
  mkCanvas (width cv) (height cv) (imageSmoothingEnabled cv)
           (imageSmoothingQuality cv)
           (push (bitmap cv) (DrawImage image sx sy sw sh dx dy dw dh)).

End Surface.

(* ================================================================== *)
(** * App: state and [handleSlice] ([App.tsx], lines 8-21 and 88-181) *)

Inductive Format : Type := webp | jpeg | png.

Definition format_name (f : Format) : string :=
  match f with
  | webp => "webp"
  | jpeg => "jpeg"
  | png => "png"
  end.

Definition is_png (f : Format) : bool :=
  match f with png => true | _ => false end.

Record GridConfig : Type := mkGridConfig { rows : Z; cols : Z }.

(** The component's [useState] cells. *)
Record AppState (num : Type) : Type := mkAppState {
  image : option (HTMLImageElement num);
  gridConfig : GridConfig;
  quality : num;
  outputFormat : Format;
  optimizeResolution : bool;
  gridLines : GridLines num;
  slices : list SliceResult;
  isSlicing : bool;
  settingsDirty : bool;
  showSafariWarning : bool
}.
Arguments mkAppState {num} _ _ _ _ _ _ _ _ _ _.
Arguments image {num} _.
Arguments gridConfig {num} _.
Arguments quality {num} _.
Arguments outputFormat {num} _.
Arguments optimizeResolution {num} _.
Arguments gridLines {num} _.
Arguments slices {num} _.
Arguments isSlicing {num} _.
Arguments settingsDirty {num} _.
Arguments showSafariWarning {num} _.

(** A crop rectangle in source pixels (lines 118-124). *)
Record CropRect (num : Type) : Type := mkCropRect {
  xStartOrig : num;
  yStartOrig : num;
  sliceW : num;
  sliceH : num
}.
Arguments mkCropRect {num} _ _ _ _.
Arguments xStartOrig {num} _.
Arguments yStartOrig {num} _.
Arguments sliceW {num} _.
Arguments sliceH {num} _.

Section Slicing.
Context {num : Type} {N : JSNumber num}.
Local Open Scope js_scope.

Definition setIsSlicing (s : AppState num) (b : bool) : AppState num :=
  mkAppState (image s) (gridConfig s) (quality s) (outputFormat s)
             (optimizeResolution s) (gridLines s) (slices s) b
             (settingsDirty s) (showSafariWarning s).

Definition setSlices (s : AppState num) (l : list SliceResult) : AppState num :=
  mkAppState (image s) (gridConfig s) (quality s) (outputFormat s)
             (optimizeResolution s) (gridLines s) l (isSlicing s)
             (settingsDirty s) (showSafariWarning s).

Definition setSettingsDirty (s : AppState num) (b : bool) : AppState num :=
  mkAppState (image s) (gridConfig s) (quality s) (outputFormat s)
             (optimizeResolution s) (gridLines s) (slices s) (isSlicing s)
             b (showSafariWarning s).

Definition setGridLines (s : AppState num) (g : GridLines num) : AppState num :=
  mkAppState (image s) (gridConfig s) (quality s) (outputFormat s)
             (optimizeResolution s) g (slices s) (isSlicing s)
             (settingsDirty s) (showSafariWarning s).

(** [initializeGridLines] (lines 31-55) *)
Definition initializeGridLines (s : AppState num) (rows cols : Z) : AppState num :=
  setGridLines s {| horizontal := generateBoundaries rows;
                    vertical := generateBoundaries cols |}.

(** Lines 101-104 and 106-109: the band between boundary [i] and
    boundary [i+1], for every [i] below [count]. *)
Definition ranges (boundaries : list (Boundary num)) (count : Z)
  : Result (list (num * num)) :=
  forM_lt count (fun i acc =>
    a <- get boundaries i ;;
    b <- get boundaries (i + 1) ;;
    Ok (push acc (end_ a, start b))) [].

(** Lines 118-124: the crop rectangle of cell [(r, c)]. *)
Definition cropRect (hRanges vRanges : list (num * num))
           (naturalWidth naturalHeight : num) (r c : Z) : Result (CropRect num) :=
  vc <- get vRanges c ;;
  let xStartOrig := (fst vc / lit 100) * naturalWidth in
  let xEndOrig := (snd vc / lit 100) * naturalWidth in
  hr <- get hRanges r ;;
  let yStartOrig := (fst hr / lit 100) * naturalHeight in
  let yEndOrig := (snd hr / lit 100) * naturalHeight in
  let sliceW := Math_max (lit 0) (xEndOrig - xStartOrig) in
  let sliceH := Math_max (lit 0) (yEndOrig - yStartOrig) in
  Ok (mkCropRect xStartOrig yStartOrig sliceW sliceH).

(** Line 126: [sliceW <= 0 || sliceH <= 0] *)
Definition zeroArea (crop : CropRect num) : bool :=
  (sliceW crop <=? lit 0) || (sliceH crop <=? lit 0).

(** Line 128 *)
Definition maxDim (optimizeResolution : bool) : num :=
  if optimizeResolution then lit 1080 else lit 4096.

(** Lines 128-136: the resolution cap. *)
Definition targetSize (optimizeResolution : bool) (sliceW sliceH : num)
  : num * num :=
  let maxDim := maxDim optimizeResolution in
  let targetW := sliceW in
  let targetH := sliceH in
  if (targetW >? maxDim) || (targetH >? maxDim) then
    let ratio := Math_min (maxDim / targetW) (maxDim / targetH) in
    (targetW * ratio, targetH * ratio)
  else (targetW, targetH).

(** Lines 138-149: size, clear and draw on the shared canvas. *)
Definition paint (canvas : Canvas num) (image : HTMLImageElement num)
           (crop : CropRect num) (targetW targetH : num) : Canvas num :=
  let canvas := set_width canvas targetW in
  let canvas := set_height canvas targetH in
  let canvas := clearRect canvas (lit 0) (lit 0) targetW targetH in
  let canvas := set_imageSmoothingEnabled canvas true in
  let canvas := set_imageSmoothingQuality canvas high in
  drawImage canvas image
            (xStartOrig crop) (yStartOrig crop) (sliceW crop) (sliceH crop)
            (lit 0) (lit 0) targetW targetH.

(** The variables the double loop updates: [newSlices], [index] and the
    one canvas all iterations share. *)
Definition LoopState : Type := (list SliceResult * Z * Canvas num)%type.

(** Lines 117-172: one iteration of the inner loop. *)
Definition sliceCell (env : Browser num) (image : HTMLImageElement num)
           (hRanges vRanges : list (num * num))
           (quality : num) (optimizeResolution : bool) (outputFormat : Format)
           (mimeType : string) (r c : Z) (st : LoopState) : Result LoopState :=
  let '(newSlices, index, canvas) := st in
  crop <- cropRect hRanges vRanges (naturalWidth image) (naturalHeight image) r c ;;
  if zeroArea crop then Ok st                                   (* continue *)
  else
    let '(targetW, targetH) :=
      targetSize optimizeResolution (sliceW crop) (sliceH crop) in
    let canvas := paint canvas image crop targetW targetH in
    let qVal := if is_png outputFormat then None else Some quality in
    let blob := toBlob env canvas mimeType qVal in
    let newSlices :=
      match blob with
      | Some blob =>
          let dataUrl := readAsDataURL env blob in
          push newSlices (mkSliceResult dataUrl index r c)
      | None => newSlices
      end in
    Ok (newSlices, (index + 1)%Z, canvas).

(** Lines 96-173: the slicing pass proper, once an image and a drawing
    context are at hand. *)
Definition sliceImage (env : Browser num) (image : HTMLImageElement num)
           (gridLines : GridLines num)
           (quality : num) (optimizeResolution : bool) (outputFormat : Format)
  : Result (list SliceResult) :=
  let canvas := createCanvas in
  let numRows := (len (horizontal gridLines) - 1)%Z in
  let numCols := (len (vertical gridLines) - 1)%Z in
  hRanges <- ranges (horizontal gridLines) numRows ;;
  vRanges <- ranges (vertical gridLines) numCols ;;
  let newSlices : list SliceResult := [] in
  let index := 0%Z in
  let mimeType := ("image/" ++ format_name outputFormat)%string in
  st <- forM_lt numRows (fun r st =>
          forM_lt numCols (fun c st =>
            sliceCell env image hRanges vRanges
                      quality optimizeResolution outputFormat mimeType r c st) st)
        (newSlices, index, canvas) ;;
  Ok (fst (fst st)).

(** [handleSlice] (lines 88-181), as a transition of the component state. *)
Definition handleSlice (env : Browser num) (s : AppState num)
  : Result (AppState num) :=
  match image s with
  | None => Ok s                                   (* if (!image) return; *)
  | Some img =>
      let s := setIsSlicing s true in
      if negb (getContext2d env) then Ok s         (* if (!ctx) return; *)
      else
        newSlices <- sliceImage env img (gridLines s) (quality s)
                                (optimizeResolution s) (outputFormat s) ;;
        let s := setSlices s newSlices in
        let s := setIsSlicing s false in
        let s := setSettingsDirty s false in
        Ok s
  end.

End Slicing.

(* ================================================================== *)
(** * GridEditor: the drag handler ([App.tsx], lines 401-442) *)

Module GridEditor.

Inductive Axis : Type := h | v.                     (* 'h' | 'v' *)
Inductive Side : Type := side_start | side_end.     (* 'start' | 'end' *)

(** The [dragging] state, when it is not [null]. *)
Record Dragging : Type := mkDragging {
  type : Axis;
  boundaryIdx : Z;
  side : Side
}.

Record DOMRect (num : Type) : Type := mkDOMRect {
  left : num;
  top : num;
  width : num;
  height : num
}.
Arguments mkDOMRect {num} _ _ _ _.
Arguments left {num} _.
Arguments top {num} _.
Arguments width {num} _.
Arguments height {num} _.

Record MouseEvent (num : Type) : Type := mkMouseEvent {
  clientX : num;
  clientY : num
}.
Arguments mkMouseEvent {num} _ _.
Arguments clientX {num} _.
Arguments clientY {num} _.

Section Drag.
Context {num : Type} {N : JSNumber num}.
Local Open Scope js_scope.

(** [handleMouseDown] (lines 409-411) *)
Definition handleMouseDown (type : Axis) (boundaryIdx : Z) (side : Side)
  : option Dragging :=
  Some (mkDragging type boundaryIdx side).

(** [handleMouseUp] (lines 440-442) *)
Definition handleMouseUp : option Dragging := None.

(** [{ ...b, [side]: value }] *)
Definition withSide (b : Boundary num) (side : Side) (value : num)
  : Boundary num :=
  match side with
  | side_start => {| start := value; end_ := end_ b |}
  | side_end => {| start := start b; end_ := value |}
  end.

(** Lines 417-418: the pointer's position as a percentage of the
    surface's bounding box, [x] and [y]. *)
Definition pointerX (rect : DOMRect num) (e : MouseEvent num) : num :=
  ((clientX e - left rect) / width rect) * lit 100.

Definition pointerY (rect : DOMRect num) (e : MouseEvent num) : num :=
  ((clientY e - top rect) / height rect) * lit 100.

(** Lines 420-421 *)
Definition clampedX (rect : DOMRect num) (e : MouseEvent num) : num :=
  Math_max (lit 0) (Math_min (lit 100) (pointerX rect e)).

Definition clampedY (rect : DOMRect num) (e : MouseEvent num) : num :=
  Math_max (lit 0) (Math_min (lit 100) (pointerY rect e)).

(** [handleMouseMove] (lines 413-438): the grid lines after the event;
    [containerRef] is the bounding box of the editing surface, when the
    surface is mounted. *)
Definition handleMouseMove (dragging : option Dragging)
           (containerRef : option (DOMRect num))
           (gridLines : GridLines num) (e : MouseEvent num) : GridLines num :=
  match dragging, containerRef with
  | Some dragging, Some rect =>
      let clampedX := clampedX rect e in
      let clampedY := clampedY rect e in
      {| horizontal :=
           match type dragging with
           | h => mapi (fun b idx =>
                          if negb (idx =? boundaryIdx dragging)%Z then b
                          else withSide b (side dragging) clampedY)
                       (horizontal gridLines)
           | v => horizontal gridLines
           end;
         vertical :=
           match type dragging with
           | v => mapi (fun b idx =>
                          if negb (idx =? boundaryIdx dragging)%Z then b
                          else withSide b (side dragging) clampedX)
                       (vertical gridLines)
           | h => vertical gridLines
           end |}
  | _, _ => gridLines                                        (* return *)
  end.

(** For the statements: the list of boundaries a drag edits, the
    list it does not, and the pointer percentage and clamped value
    that belong to its axis. *)
Definition editedAxis (d : Dragging) (g : GridLines num)
  : list (Boundary num) :=
  match type d with
  | h => horizontal g
  | v => vertical g
  end.




End Drag.

End GridEditor.

(* ================================================================== *)
(** * SlicePreview: export ([components/SlicePreview.tsx]) *)

Module SlicePreview.

(** The props object [App] hands over (App.tsx, line 378):
    [slices], [gridCols] and [format].  The component's own interface
    (lines 7-10) declares, and the component reads, the first two. *)
Record Props : Type := mkProps {
  slices : list SliceResult;
  gridCols : Z;
  format : Format
}.

(** A number in a template literal. *)
Definition string_of_Z (z : Z) : string :=
  NilZero.string_of_int (Z.to_int z).

(** [s.split(sep)] for a one-character separator. *)
Fixpoint split (sep : ascii) (s : string) : list string :=
  match s with
  | EmptyString => [EmptyString]
  | String ch rest =>
      if Ascii.eqb ch sep then EmptyString :: split sep rest
      else match split sep rest with
           | piece :: pieces => String ch piece :: pieces
           | [] => [String ch EmptyString]
           end
  end.

(** An entry of the archive: [zip.file(name, data, { base64: true })];
    [data] is [None] when it is [undefined]. *)
Record ZipEntry : Type := mkZipEntry {
  name : string;
  data : option string
}.

(** What [downloadAll] hands to the browser: the archive's entries and
    the name the archive is saved under. *)
Record Archive : Type := mkArchive {
  entries : list ZipEntry;
  download : string
}.

(** [downloadAll] (lines 37-62); [None] when a run is already zipping. *)
Definition downloadAll (isZipping : bool) (props : Props) : option Archive :=
  if isZipping then None
  else
    let zip :=
      mapi (fun slice idx =>
              let base64Data := at_index (split "," (dataUrl slice)) 1 in
              mkZipEntry ("slice_" ++ string_of_Z (idx + 1) ++ ".webp") base64Data)
           (slices props) in
    Some (mkArchive zip
            ("grid_slices_" ++ string_of_Z (len (slices props)) ++ "_tiles.zip")).

(** The anchor [downloadOne] clicks. *)
Record Link : Type := mkLink {
  href : string;
  link_download : string
}.

(** [downloadOne] (lines 64-71) *)
Definition downloadOne (dataUrl : string) (idx : Z) : Link :=
  mkLink dataUrl ("slice_" ++ string_of_Z (idx + 1) ++ ".webp").

(** The per-tile download button (line 132). *)
Definition tileDownload (slice : SliceResult) : Link :=
  downloadOne (dataUrl slice) (index slice).

End SlicePreview.

Section Render.
Context {num : Type} {N : JSNumber num}.

(** App.tsx, lines 370-380: the results section is rendered when there
    are slices. *)
Definition renderSlicePreview (s : AppState num) : option SlicePreview.Props :=
  match slices s with
  | [] => None
  | _ :: _ =>
      Some (SlicePreview.mkProps (slices s)
              (len (vertical (gridLines s)) - 1) (outputFormat s))
  end.

End Render.

(* ================================================================== *)
(** * Vocabulary of the statements *)

(** The values a [for] counter takes: [n] of them, from [i] up. *)
Fixpoint zseq (n : nat) (i : Z) : list Z :=
  match n with
  | O => []
  | Datatypes.S n' => i :: zseq n' (i + 1)
  end.

(** The cells of a [numRows] x [numCols] grid in row-major scan order. *)
Definition cells (numRows numCols : Z) : list (Z * Z) :=
  flat_map (fun r => map (fun c => (r, c)) (zseq (Z.to_nat numCols) 0))
           (zseq (Z.to_nat numRows) 0).

(** A list fold whose step may throw. *)
Fixpoint foldM {A S} (body : A -> S -> Result S) (l : list A) (s : S) : Result S :=
  match l with
  | [] => Ok s
  | a :: l' => s' <- body a s ;; foldM body l' s'
  end.

Section Vocabulary.
Context {num : Type} {N : JSNumber num}.
Local Open Scope js_scope.

(** Boundary [i] of the default grid on an axis of [count] cells. *)
Definition defaultBoundary (count i : Z) : Boundary num :=
  if (i =? 0)%Z then {| start := lit 0; end_ := lit 1.5 |}
  else if (i =? count)%Z then {| start := lit 98.5; end_ := lit 100 |}
  else {| start := of_int i * (lit 100 / of_int count) - lit 1;
          end_ := of_int i * (lit 100 / of_int count) + lit 1 |}.

(** The visible band between boundary [i] and boundary [i+1]: from the
    end of the one to the start of the other. *)
Definition band (boundaries : list (Boundary num)) (i : Z) : option (num * num) :=
  match at_index boundaries i, at_index boundaries (i + 1) with
  | Some a, Some b => Some (end_ a, start b)
  | _, _ => None
  end.

(** The crop rectangle of cell [(r, c)], read off the grid lines. *)
Definition cellCrop (gridLines : GridLines num) (imageWidth imageHeight : num)
           (r c : Z) : option (CropRect num) :=
  match band (horizontal gridLines) r, band (vertical gridLines) c with
  | Some (yStartPct, yEndPct), Some (xStartPct, xEndPct) =>
      let xStart := (xStartPct / lit 100) * imageWidth in
      let xEnd := (xEndPct / lit 100) * imageWidth in
      let yStart := (yStartPct / lit 100) * imageHeight in
      let yEnd := (yEndPct / lit 100) * imageHeight in
      Some (mkCropRect xStart yStart
                       (Math_max (lit 0) (xEnd - xStart))
                       (Math_max (lit 0) (yEnd - yStart)))
  | _, _ => None
  end.

(** The canvas the encoder is given for a crop rectangle. *)
Definition tileCanvas (image : HTMLImageElement num) (optimizeResolution : bool)
           (crop : CropRect num) : Canvas num :=
  let '(targetW, targetH) :=
    targetSize optimizeResolution (sliceW crop) (sliceH crop) in
  paint createCanvas image crop targetW targetH.

(** The data URL of the encoded tile, [None] when the encoder gives no
    blob. *)
Definition encodeTile (env : Browser num) (image : HTMLImageElement num)
           (quality : num) (optimizeResolution : bool) (outputFormat : Format)
           (crop : CropRect num) : option string :=
  option_map (readAsDataURL env)
    (toBlob env (tileCanvas image optimizeResolution crop)
            ("image/" ++ format_name outputFormat)%string
            (if is_png outputFormat then None else Some quality)).

(** What a cell comes to: [None] when its crop has no area and it is
    skipped; otherwise [Some] of the encode's outcome. *)
Definition attempt (env : Browser num) (image : HTMLImageElement num)
           (gridLines : GridLines num)
           (quality : num) (optimizeResolution : bool) (outputFormat : Format)
           (cell : Z * Z) : option (option string) :=
  match cellCrop gridLines (naturalWidth image) (naturalHeight image)
                 (fst cell) (snd cell) with
  | Some crop =>
      if zeroArea crop then None
      else Some (encodeTile env image quality optimizeResolution outputFormat crop)
  | None => None
  end.

(** A cell the scan encodes (or tries to): in the grid, with a crop of
    positive width and height. *)
Definition encoded (image : HTMLImageElement num) (gridLines : GridLines num)
           (cell : Z * Z) : bool :=
  match cellCrop gridLines (naturalWidth image) (naturalHeight image)
                 (fst cell) (snd cell) with
  | Some crop => negb (zeroArea crop)
  | None => false
  end.

(** The [slices] state after a call of [handleSlice] that returned. *)
Definition slicesAfter (outcome : Result (AppState num)) : list SliceResult :=
  match outcome with
  | Ok s' => slices s'
  | TypeError => []
  end.

(** What [handleSlice] reads of the state: the image, the grid lines
    and the slice configuration. *)
Definition sliceInputs (s : AppState num)
  : option (HTMLImageElement num) * GridLines num * num * bool * Format :=
  (image s, gridLines s, quality s, optimizeResolution s, outputFormat s).

End Vocabulary.

(** A cell the scan did not skip. *)
Definition attempted (outcome : Z * Z -> option (option string)) (cell : Z * Z)
  : bool :=
  match outcome cell with
  | Some _ => true
  | None => false
  end.

(** The tiles of a scan, given what each cell comes to: the tile of a cell
    carries the number of cells before it that were not skipped. *)
Fixpoint collect (outcome : Z * Z -> option (option string))
         (scan : list (Z * Z)) (index : Z) : list SliceResult :=
  match scan with
  | [] => []
  | cell :: rest =>
      match outcome cell with
      | None => collect outcome rest index
      | Some None => collect outcome rest (index + 1)
      | Some (Some dataUrl) =>
          mkSliceResult dataUrl index (fst cell) (snd cell)
            :: collect outcome rest (index + 1)
      end
  end.

(* ================================================================== *)
(** * Concrete runs, in binary64 *)

Module Scenario.
Local Open Scope js_scope.

(** A browser whose encoder gives no blob for a surface less than one
    pixel wide or high, as [toBlob] does for a canvas without pixels,
    and otherwise a blob that records the MIME type asked for. *)
Definition browser : Browser float :=
  mkBrowser true
    (fun cv mimeType qVal =>
       if (width cv <? lit 1) || (height cv <? lit 1) then None
       else Some mimeType)
    (fun blob => ("data:" ++ blob ++ ";base64,AAAA")%string).

Definition photo (w h : Z) : HTMLImageElement float :=
  mkImage (of_int w) (of_int h) "photo".

(** The state once an image is loaded: default grid lines, no slices
    (lines 63-69 and 77-81). *)
Definition loaded (img : HTMLImageElement float) (rows cols : Z)
           (optimizeResolution : bool) (outputFormat : Format) : AppState float :=
  initializeGridLines
    (mkAppState (Some img) (mkGridConfig rows cols) (lit 0.6) outputFormat
                optimizeResolution (mkGridLines [] []) [] false false false)
    rows cols.

(** The editing surface, 800 x 800 CSS pixels at the page origin. *)
Definition surface : GridEditor.DOMRect float :=
  GridEditor.mkDOMRect (lit 0) (lit 0) (lit 800) (lit 800).

(** Press a handle, move the pointer to [(x, y)], release. *)
Definition drag (axis : GridEditor.Axis) (boundaryIdx : Z)
           (side : GridEditor.Side) (x y : Z) (s : AppState float)
  : AppState float :=
  setGridLines s
    (GridEditor.handleMouseMove
       (GridEditor.handleMouseDown axis boundaryIdx side) (Some surface)
       (gridLines s) (GridEditor.mkMouseEvent (of_int x) (of_int y))).

(** A 1 x 1 grid on a 5000 x 5000 image, web optimization off. *)
Definition square5000 : AppState float :=
  loaded (photo 5000 5000) 1 1 false webp.

(** A 1 x 2 grid on a 1000 x 1000 image; the start of the middle
    vertical boundary dragged to 0.5%, left of the end (1.5%) of the
    first boundary: the band of column 0 is inverted. *)
Definition inverted : AppState float :=
  drag GridEditor.v 1 GridEditor.side_start 4 400
       (loaded (photo 1000 1000) 1 2 true webp).

(** A 1 x 2 grid on a 400 x 400 image with the start of the middle
    boundary at 1.625%: column 0 is half a pixel wide, too narrow for
    the encoder.  Output as PNG. *)
Definition sliver : AppState float :=
  drag GridEditor.v 1 GridEditor.side_start 13 400
       (loaded (photo 400 400) 1 2 true png).

(** A 6608 x 6608 image under the application's defaults: 3 x 3 grid,
    untouched boundaries, web optimization on, WebP (lines 10-13). *)
Definition upload6608 : AppState float :=
  loaded (photo 6608 6608) 3 3 true webp.

(** The state after [handleSlice] in this browser. *)
Definition sliced (s : AppState float) : AppState float :=
  match handleSlice browser s with
  | Ok s' => s'
  | TypeError => s
  end.

(** A state that differs from [s] only in what [handleSlice] does not
    read. *)
Definition stale (s : AppState float) : AppState float :=
  mkAppState (image s) (mkGridConfig 6 6) (quality s) (outputFormat s)
             (optimizeResolution s) (gridLines s)
             [mkSliceResult "data:," 7 7 7] (isSlicing s) true true.

End Scenario.

(* ================================================================== *)
(** * App: the other handlers and the effects ([App.tsx]) *)

(** [Object.is], by which React decides whether a state setter changed
    the state and whether an effect's dependency changed. *)
Class SameValue (num : Type) : Type := {
  Object_is : num -> num -> bool
}.

#[export] Instance exactQ_same : SameValue Q := {
  Object_is := Qeq_bool
}.

(** On doubles [Object.is] is identity of the value: NaN is NaN, and
    [+0] is not [-0]. *)
#[export] Instance binary64_same : SameValue float := {
  Object_is := PrimFloat.Leibniz.eqb
}.

Definition Format_eqb (f g : Format) : bool :=
  match f, g with
  | webp, webp | jpeg, jpeg | png, png => true
  | _, _ => false
  end.

(** The grids the three buttons of lines 238-255 select. *)
Inductive Preset : Type := Grid3x3 | Grid6x6 | FiveVerticals.

Definition presetConfig (p : Preset) : GridConfig :=
  match p with
  | Grid3x3 => mkGridConfig 3 3
  | Grid6x6 => mkGridConfig 6 6
  | FiveVerticals => mkGridConfig 1 5
  end.

Section AppEvents.
Context {num : Type} {N : JSNumber num} {E : SameValue num}.

Definition setImage (s : AppState num) (img : option (HTMLImageElement num))
  : AppState num :=
  mkAppState img (gridConfig s) (quality s) (outputFormat s)
             (optimizeResolution s) (gridLines s) (slices s) (isSlicing s)
             (settingsDirty s) (showSafariWarning s).

Definition setGridConfig (s : AppState num) (g : GridConfig) : AppState num :=
  mkAppState (image s) g (quality s) (outputFormat s)
             (optimizeResolution s) (gridLines s) (slices s) (isSlicing s)
             (settingsDirty s) (showSafariWarning s).

Definition setQuality (s : AppState num) (q : num) : AppState num :=
  mkAppState (image s) (gridConfig s) q (outputFormat s)
             (optimizeResolution s) (gridLines s) (slices s) (isSlicing s)
             (settingsDirty s) (showSafariWarning s).

Definition setOutputFormat (s : AppState num) (f : Format) : AppState num :=
  mkAppState (image s) (gridConfig s) (quality s) f
             (optimizeResolution s) (gridLines s) (slices s) (isSlicing s)
             (settingsDirty s) (showSafariWarning s).

Definition setOptimizeResolution (s : AppState num) (b : bool) : AppState num :=
  mkAppState (image s) (gridConfig s) (quality s) (outputFormat s)
             b (gridLines s) (slices s) (isSlicing s)
             (settingsDirty s) (showSafariWarning s).

Definition setShowSafariWarning (s : AppState num) (b : bool) : AppState num :=
  mkAppState (image s) (gridConfig s) (quality s) (outputFormat s)
             (optimizeResolution s) (gridLines s) (slices s) (isSlicing s)
             (settingsDirty s) b.

(** The state of the first render (lines 9-21), after the mount effect of
    lines 24-29, which shows the warning when the user agent is Safari. *)
Definition initialState (isSafari : bool) : AppState num :=
  mkAppState None (mkGridConfig 3 3) (lit 0.6) webp true
             (mkGridLines [] []) [] false false isSafari.

(** The effect of lines 57-61; it runs when [quality],
    [optimizeResolution], [gridConfig] or [outputFormat] changed. *)
Definition settingsEffect (s : AppState num) : AppState num :=
  if (0 <? len (slices s))%Z then setSettingsDirty s true else s.

(** The effect of lines 63-69; it runs when [image] or [gridConfig]
    changed. *)
Definition imageEffect (s : AppState num) : AppState num :=
  match image s with
  | Some _ =>
      let s := initializeGridLines s (rows (gridConfig s)) (cols (gridConfig s)) in
      let s := setSlices s [] in
      setSettingsDirty s false
  | None => s
  end.

(** [img.onload] of [handleImageUpload] (lines 77-81), and the effect the
    new image then triggers. *)
Definition imageLoaded (img : HTMLImageElement num) (s : AppState num)
  : AppState num :=
  let s' := setImage s (Some img) in
  let s' := initializeGridLines s' (rows (gridConfig s)) (cols (gridConfig s)) in
  let s' := setSlices s' [] in
  imageEffect s'.

(** The Reset button (line 211); the effect on [image] finds no image. *)
Definition resetClick (s : AppState num) : AppState num :=
  imageEffect (setSlices (setImage s None) []).

(** A grid button (lines 239, 245, 251): the object it sets is a new one,
    so both effects run, in the order they are declared. *)
Definition presetClick (p : Preset) (s : AppState num) : AppState num :=
  imageEffect (settingsEffect (setGridConfig s (presetConfig p))).

(** A format button (line 299): nothing happens when the format is the
    current one. *)
Definition formatClick (f : Format) (s : AppState num) : AppState num :=
  if Format_eqb f (outputFormat s) then s
  else settingsEffect (setOutputFormat s f).

(** The web-optimization checkbox (line 335). *)
Definition optimizeToggle (s : AppState num) : AppState num :=
  settingsEffect (setOptimizeResolution s (negb (optimizeResolution s))).

(** The quality slider (line 319): nothing happens when the value is the
    current one. *)
Definition qualityChange (q : num) (s : AppState num) : AppState num :=
  if Object_is q (quality s) then s
  else settingsEffect (setQuality s q).

(** The warning's close button (line 192). *)
Definition dismissWarning (s : AppState num) : AppState num :=
  setShowSafariWarning s false.

(** A pointer move over the editor: [GridEditor] calls the [setGridLines]
    it was given (line 262); no effect depends on [gridLines]. *)
Definition pointerMove (d : option GridEditor.Dragging)
           (rect : option (GridEditor.DOMRect num))
           (e : GridEditor.MouseEvent num) (s : AppState num) : AppState num :=
  setGridLines s (GridEditor.handleMouseMove d rect (gridLines s) e).

(** The Generate button (line 275), for a call of [handleSlice] that runs
    to its end before anything else happens. *)
Definition sliceClick (env : Browser num) (s : AppState num) : AppState num :=
  match handleSlice env s with
  | Ok s' => s'
  | TypeError => s
  end.

(** [handleSlice] is asynchronous: between its first line and its last
    three, clicks and pointer moves are served.  A session is the state of
    the component together with the tiles of a call that has not settled
    yet - the call computes them from the values of the render it was
    made in (line 181). *)
Record Session : Type := mkSession {
  app : AppState num;
  inFlight : option (list SliceResult)
}.

Definition serve (handler : AppState num -> AppState num) (session : Session)
  : Session :=
  mkSession (handler (app session)) (inFlight session).

(** A click on Generate: the button is disabled while [isSlicing]
    (line 276); otherwise lines 89-94 run at once. *)
Definition sliceStart (env : Browser num) (session : Session) : Session :=
  let s := app session in
  if isSlicing s then session
  else
    match image s with
    | None => session
    | Some _ =>
        mkSession (setIsSlicing s true)
                  (if negb (getContext2d env) then None
                   else match handleSlice env s with
                        | Ok s' => Some (slices s')
                        | TypeError => None
                        end)
    end.

(** The call settles: lines 175-177 act on the state of that moment. *)
Definition sliceSettled (session : Session) : Session :=
  match inFlight session with
  | None => session
  | Some newSlices =>
      let s := setSlices (app session) newSlices in
      let s := setIsSlicing s false in
      let s := setSettingsDirty s false in
      mkSession s None
  end.

(** What can happen to the component.  The events are taken in every
    state; the page offers fewer of them (without an image it shows only
    the upload area). *)
Inductive Event : Type :=
| ImageLoaded (img : HTMLImageElement num)
| ResetClick
| PresetClick (p : Preset)
| FormatClick (f : Format)
| OptimizeToggle
| QualityChange (q : num)
| DismissWarning
| PointerMove (d : option GridEditor.Dragging)
              (rect : option (GridEditor.DOMRect num))
              (e : GridEditor.MouseEvent num)
| SliceClick
| SliceSettled.

Definition step (env : Browser num) (ev : Event) (session : Session)
  : Session :=
  match ev with
  | ImageLoaded img => serve (imageLoaded img) session
  | ResetClick => serve resetClick session
  | PresetClick p => serve (presetClick p) session
  | FormatClick f => serve (formatClick f) session
  | OptimizeToggle => serve optimizeToggle session
  | QualityChange q => serve (qualityChange q) session
  | DismissWarning => serve dismissWarning session
  | PointerMove d rect e => serve (pointerMove d rect e) session
  | SliceClick => sliceStart env session
  | SliceSettled => sliceSettled session
  end.

(** The session after a sequence of events, first event first, from the
    first render. *)
Definition run (env : Browser num) (isSafari : bool) (events : list Event)
  : Session :=
  fold_left (fun session ev => step env ev session) events
            (mkSession (initialState isSafari) None).

(** The tiles a session may hold: at most one per cell of a 6 x 6 grid,
    their indices increasing. *)
Definition tilesOfAPreset (tiles : list SliceResult) : Prop :=
  StronglySorted (fun a b => index a < index b)%Z tiles /\
  Forall (fun t => (0 <= row t < 6)%Z /\ (0 <= col t < 6)%Z /\
                   (0 <= index t < 36)%Z) tiles.

(** What every session keeps. *)
Definition wellFormed (session : Session) : Prop :=
  let s := app session in
  (exists p, gridConfig s = presetConfig p) /\
  (image s <> None ->
   len (horizontal (gridLines s)) = (rows (gridConfig s) + 1)%Z /\
   len (vertical (gridLines s)) = (cols (gridConfig s) + 1)%Z) /\
  (image s <> None -> settingsDirty s = true -> slices s <> []) /\
  tilesOfAPreset (slices s) /\
  (forall tiles, inFlight session = Some tiles -> tilesOfAPreset tiles).

(** The React keys of the tiles [SlicePreview] renders (line 115). *)
Definition tileKeys (s : AppState num) : list Z := map index (slices s).

End AppEvents.

(** A boundary coordinate as [types.ts] (lines 168-171) documents it, a
    percentage from 0 to 100 - or NaN, which a pointer position over a
    surface without extent gives (0/0). *)
Definition percentage (x : float) : bool :=
  PrimFloat.is_nan x || (num_le (lit 0) x && num_le x (lit 100)).

Definition onTheImage (gridLines : GridLines float) : bool :=
  forallb (fun b => percentage (start b) && percentage (end_ b))
          (horizontal gridLines ++ vertical gridLines).

(* ================================================================== *)
(** * GridEditor: what it draws ([App.tsx], lines 468-516) *)

Class MathAbs (num : Type) : Type := {
  Math_abs : num -> num
}.

#[export] Instance exactQ_abs : MathAbs Q := { Math_abs := Qabs }.
#[export] Instance binary64_abs : MathAbs float := { Math_abs := PrimFloat.abs }.

Module GridEditorView.

Section View.
Context {num : Type} {N : JSNumber num} {A : MathAbs num}.
Local Open Scope js_scope.

(** The red overlay of a boundary (lines 472-476, 495-499): its offset
    and its extent along the boundary's axis, in percent. *)
Definition overlayOffset (boundary : Boundary num) : num :=
  Math_min (start boundary) (end_ boundary).

Definition overlayExtent (boundary : Boundary num) : num :=
  Math_abs (end_ boundary - start boundary).

(** The badge in the corner (line 515). *)
Definition badge (gridLines : GridLines num) : string :=
  (SlicePreview.string_of_Z (len (horizontal gridLines) - 1) ++ "x"
   ++ SlicePreview.string_of_Z (len (horizontal gridLines) - 1)
   ++ " Master Mode")%string.

End View.

End GridEditorView.

(* ================================================================== *)
(** * SlicePreview: sizes ([components/SlicePreview.tsx], lines 25-35) *)

Module SlicePreviewSizes.

(** [Math.floor(base64Length * (3/4))].  [base64Length] is a string
    length; 3/4 is a double, and so is the product for every length
    below 2^51, so the floor is the integer quotient of [3 * length]
    by 4. *)
Definition estimate (base64Length : Z) : Z := (base64Length * 3 / 4)%Z.

(** [slice.dataUrl.split(',')[1].length]: reading [length] of
    [undefined] throws. *)
Definition base64Length (slice : SliceResult) : Result Z :=
  match at_index (SlicePreview.split "," (dataUrl slice)) 1 with
  | Some base64 => Ok (Z.of_nat (String.length base64))
  | None => TypeError
  end.

(** [sliceSizes] (lines 25-31) *)
Fixpoint sliceSizes (slices : list SliceResult) : Result (list Z) :=
  match slices with
  | [] => Ok []
  | slice :: rest =>
      n <- base64Length slice ;;
      sizes <- sliceSizes rest ;;
      Ok (estimate n :: sizes)
  end.

(** [totalSize] (lines 33-35) *)
Definition totalSize (sliceSizes : list Z) : Z :=
  fold_left (fun a b => (a + b)%Z) sliceSizes 0%Z.

End SlicePreviewSizes.

(* ================================================================== *)
(** * Vocabulary of the further statements *)

(** [s.includes(sep)] for a one-character [sep]. *)
Fixpoint contains (sep : ascii) (s : string) : bool :=
  match s with
  | EmptyString => false
  | String ch rest => Ascii.eqb ch sep || contains sep rest
  end.

(** The name [downloadAll] gives the entry at (1-based) position [n],
    and [downloadOne] the tile of index [n - 1]. *)
Definition sliceName (n : Z) : string :=
  ("slice_" ++ SlicePreview.string_of_Z n ++ ".webp")%string.

(** The sum of a list of integers. *)
Definition sumZ (l : list Z) : Z := fold_right Z.add 0%Z l.

(* ================================================================== *)
(** * Loops *)

Lemma zseq_length (n : nat) (i : Z) : List.length (zseq n i) = n.
Proof.
  revert i; induction n as [|n IH]; intros i; simpl; [reflexivity|].
  now rewrite IH.
Qed.

Lemma in_zseq (n : nat) (i j : Z) :
  In j (zseq n i) <-> (i <= j < i + Z.of_nat n)%Z.
Proof.
  revert i; induction n as [|n IH]; intros i; simpl.
  - split; [tauto | lia].
  - rewrite IH. lia.
Qed.

Lemma zseq_snoc (n : nat) (i : Z) :
  zseq (Datatypes.S n) i = zseq n i ++ [(i + Z.of_nat n)%Z].
Proof.
  revert i; induction n as [|n IH]; intros i.
  - simpl. now rewrite Z.add_0_r.
  - change (zseq (Datatypes.S (Datatypes.S n)) i)
      with (i :: zseq (Datatypes.S n) (i + 1)).
    rewrite IH. simpl. do 3 f_equal. lia.
Qed.

Lemma for_from_fold {S} (body : Z -> S -> S) (n : nat) (i : Z) (s : S) :
  for_from n i body s = fold_left (fun s j => body j s) (zseq n i) s.
Proof.
  revert i s; induction n as [|n IH]; intros i s; simpl; [reflexivity|].
  apply IH.
Qed.

Lemma forM_from_foldM {S} (body : Z -> S -> Result S) (n : nat) (i : Z) (s : S) :
  forM_from n i body s = foldM body (zseq n i) s.
Proof.
  revert i s; induction n as [|n IH]; intros i s; simpl; [reflexivity|].
  destruct (body i s); simpl; [apply IH | reflexivity].
Qed.

Lemma foldM_app {A S} (body : A -> S -> Result S) (l1 l2 : list A) (s : S) :
  foldM body (l1 ++ l2) s = (s' <- foldM body l1 s ;; foldM body l2 s').
Proof.
  revert s; induction l1 as [|a l1 IH]; intros s; simpl; [reflexivity|].
  destruct (body a s); simpl; [apply IH | reflexivity].
Qed.

Lemma foldM_map {A B S} (f : A -> B) (body : B -> S -> Result S)
      (l : list A) (s : S) :
  foldM body (map f l) s = foldM (fun a => body (f a)) l s.
Proof.
  revert s; induction l as [|a l IH]; intros s; simpl; [reflexivity|].
  destruct (body (f a) s); simpl; [apply IH | reflexivity].
Qed.

(** Two nested [for] loops are one scan of the cells in row-major order. *)
Lemma nested_for_is_scan {S} (body : Z -> Z -> S -> Result S)
      (numRows numCols : Z) (s : S) :
  forM_lt numRows (fun r st => forM_lt numCols (fun c st => body r c st) st) s
  = foldM (fun cell => body (fst cell) (snd cell)) (cells numRows numCols) s.
Proof.
  unfold forM_lt, cells. rewrite forM_from_foldM.
  generalize (zseq (Z.to_nat numRows) 0) as rs. intros rs. revert s.
  induction rs as [|r rs IH]; intros s; simpl; [reflexivity|].
  rewrite foldM_app, forM_from_foldM, foldM_map. simpl.
  destruct (foldM (fun c => body r c) (zseq (Z.to_nat numCols) 0) s);
    simpl; [apply IH | reflexivity].
Qed.

Lemma in_cells (numRows numCols r c : Z) :
  In (r, c) (cells numRows numCols) <->
  (0 <= r < numRows /\ 0 <= c < numCols)%Z.
Proof.
  unfold cells. rewrite in_flat_map. split.
  - intros [r' [Hr Hc]]. apply in_map_iff in Hc as [c' [E Hc]].
    inversion E; subst. apply in_zseq in Hr, Hc. lia.
  - intros [Hr Hc]. exists r. split.
    + apply in_zseq. lia.
    + apply in_map_iff. exists c. split; [reflexivity|]. apply in_zseq. lia.
Qed.

Lemma cells_empty (numRows numCols : Z) :
  (numRows <= 0 \/ numCols <= 0)%Z -> cells numRows numCols = [].
Proof.
  intros Hle. destruct (cells numRows numCols) as [|[r c] l] eqn:E; [reflexivity|].
  assert (H : In (r, c) (cells numRows numCols)) by (rewrite E; left; reflexivity).
  apply in_cells in H. lia.
Qed.

(** ** Array access *)

Lemma at_index_push_old {A} (arr : list A) (x : A) (i : Z) :
  (i < len arr)%Z -> at_index (push arr x) i = at_index arr i.
Proof.
  unfold at_index, push, len. intros Hi.
  destruct (i <? 0)%Z eqn:E; [reflexivity|].
  apply Z.ltb_ge in E. apply nth_error_app1. lia.
Qed.

Lemma at_index_push_new {A} (arr : list A) (x : A) :
  at_index (push arr x) (len arr) = Some x.
Proof.
  unfold at_index, push, len.
  destruct (Z.of_nat (List.length arr) <? 0)%Z eqn:E;
    [apply Z.ltb_lt in E; lia|].
  rewrite Nat2Z.id, nth_error_app2 by lia.
  now rewrite Nat.sub_diag.
Qed.

Lemma len_push {A} (arr : list A) (x : A) : len (push arr x) = (len arr + 1)%Z.
Proof. unfold len, push. rewrite length_app. simpl. lia. Qed.

Lemma at_index_some {A} (arr : list A) (i : Z) :
  (0 <= i < len arr)%Z -> exists a, at_index arr i = Some a.
Proof.
  unfold at_index, len. intros Hi.
  destruct (i <? 0)%Z eqn:E; [apply Z.ltb_lt in E; lia|].
  destruct (nth_error arr (Z.to_nat i)) eqn:En; [eauto|].
  apply nth_error_None in En. lia.
Qed.

Lemma at_index_in_range {A} (arr : list A) (i : Z) (a : A) :
  at_index arr i = Some a -> (0 <= i < len arr)%Z.
Proof.
  unfold at_index, len. destruct (i <? 0)%Z eqn:E; [discriminate|].
  apply Z.ltb_ge in E. intros H.
  assert (Hn : nth_error arr (Z.to_nat i) <> None) by congruence.
  apply nth_error_Some in Hn. lia.
Qed.

Lemma at_index_map_zseq {A} (f : Z -> A) (n : nat) (i : Z) :
  (0 <= i < Z.of_nat n)%Z -> at_index (map f (zseq n 0)) i = Some (f i).
Proof.
  intros Hi. induction n as [|n IH]; [lia|].
  rewrite zseq_snoc, map_app. simpl. fold (push (map f (zseq n 0)) (f (Z.of_nat n))).
  assert (Hlen : len (map f (zseq n 0)) = Z.of_nat n)
    by (unfold len; now rewrite length_map, zseq_length).
  destruct (Z.eq_dec i (Z.of_nat n)) as [->|Hne].
  - rewrite <- Hlen. apply at_index_push_new.
  - rewrite at_index_push_old by lia. apply IH. lia.
Qed.

Lemma fold_left_same {A B} (f g : A -> B -> A) (l : list B) (a : A) :
  (forall a b, f a b = g a b) -> fold_left f l a = fold_left g l a.
Proof.
  intros Hfg. revert a; induction l as [|b l IH]; intros a; simpl; [reflexivity|].
  now rewrite Hfg, IH.
Qed.

Lemma fold_left_push {A B} (f : B -> A) (l : list B) (acc : list A) :
  fold_left (fun acc j => push acc (f j)) l acc = acc ++ map f l.
Proof.
  revert acc; induction l as [|b l IH]; intros acc; simpl.
  - now rewrite app_nil_r.
  - rewrite IH. unfold push. now rewrite <- app_assoc.
Qed.

(* ================================================================== *)
(** * BoundaryModel *)

Section BoundaryModelFacts.
Context {num : Type} {N : JSNumber num}.
Local Open Scope js_scope.

Lemma generateBoundaries_map (count : Z) :
  generateBoundaries count
  = map (defaultBoundary count) (zseq (Z.to_nat (count + 1)) 0).
Proof.
  unfold generateBoundaries, for_lt. rewrite for_from_fold.
  rewrite <- (app_nil_l (map _ _)), <- fold_left_push.
  apply fold_left_same. intros acc i. unfold defaultBoundary.
  rewrite Z.add_simpl_r.
  destruct (i =? 0)%Z; [reflexivity|]. destruct (i =? count)%Z; reflexivity.
Qed.

Lemma generateBoundaries_at (count i : Z) :
  (0 <= i <= count)%Z ->
  at_index (generateBoundaries count) i = Some (defaultBoundary count i).
Proof.
  intros Hi. rewrite generateBoundaries_map. apply at_index_map_zseq. lia.
Qed.

(** C2.  For every integer [count >= 1], [generateBoundaries count]
    returns exactly [count + 1] boundaries; boundary 0 is
    [{start: 0, end: 1.5}], boundary [count] is [{start: 98.5, end: 100}],
    and every boundary [i] strictly between is
    [{start: i*(100/count) - 1, end: i*(100/count) + 1}].  It holds in
    whatever arithmetic the numbers are read. *)
Theorem generateBoundaries_spec (count : Z) :
  (1 <= count)%Z ->
  len (generateBoundaries count) = (count + 1)%Z /\
  at_index (generateBoundaries count) 0
    = Some {| start := lit 0; end_ := lit 1.5 |} /\
  at_index (generateBoundaries count) count
    = Some {| start := lit 98.5; end_ := lit 100 |} /\
  forall i : Z, (0 < i < count)%Z ->
    at_index (generateBoundaries count) i
    = Some {| start := of_int i * (lit 100 / of_int count) - lit 1;
              end_ := of_int i * (lit 100 / of_int count) + lit 1 |}.
Proof.
  intros Hcount. split; [|split; [|split]].
  - rewrite generateBoundaries_map. unfold len.
    rewrite length_map, zseq_length. lia.
  - rewrite generateBoundaries_at by lia. reflexivity.
  - rewrite generateBoundaries_at by lia. unfold defaultBoundary.
    destruct (count =? 0)%Z eqn:E0; [apply Z.eqb_eq in E0; lia|].
    now rewrite Z.eqb_refl.
  - intros i Hi. rewrite generateBoundaries_at by lia. unfold defaultBoundary.
    destruct (i =? 0)%Z eqn:E0; [apply Z.eqb_eq in E0; lia|].
    destruct (i =? count)%Z eqn:E1; [apply Z.eqb_eq in E1; lia|].
    reflexivity.
Qed.

End BoundaryModelFacts.

(* ================================================================== *)
(** * SliceGeometry and the slicing pass *)

Section SlicingFacts.
Context {num : Type} {N : JSNumber num}.
Local Open Scope js_scope.

Lemma band_some (boundaries : list (Boundary num)) (i : Z) :
  (0 <= i < len boundaries - 1)%Z -> exists b, band boundaries i = Some b.
Proof.
  intros Hi. unfold band.
  destruct (@at_index_some _ boundaries i) as [a ->]; [lia|].
  destruct (@at_index_some _ boundaries (i + 1)) as [b ->]; [lia|]. eauto.
Qed.

Lemma band_in_range (boundaries : list (Boundary num)) (i : Z) (b : num * num) :
  band boundaries i = Some b -> (0 <= i < len boundaries - 1)%Z.
Proof.
  unfold band.
  destruct (at_index boundaries i) eqn:E1; [|discriminate].
  destruct (at_index boundaries (i + 1)) eqn:E2; [|discriminate].
  apply at_index_in_range in E1, E2. lia.
Qed.

(** The loop of lines 102-104 (and 107-109), from counter [i] on. *)
Lemma ranges_loop (boundaries : list (Boundary num)) (n : nat) :
  forall (i : Z) (acc : list (num * num)),
    (0 <= i)%Z -> (i + Z.of_nat n <= len boundaries - 1)%Z -> len acc = i ->
    exists rs,
      forM_from n i
        (fun i acc =>
           a <- get boundaries i ;;
           b <- get boundaries (i + 1) ;;
           Ok (push acc (end_ a, start b))) acc = Ok rs /\
      len rs = (i + Z.of_nat n)%Z /\
      (forall j, (j < i)%Z -> at_index rs j = at_index acc j) /\
      (forall j, (i <= j < i + Z.of_nat n)%Z -> at_index rs j = band boundaries j).
Proof.
  induction n as [|n IH]; intros i acc Hi Hn Hacc.
  - exists acc. split; [reflexivity|]. split; [lia|].
    split; [reflexivity | intros; lia].
  - cbn [forM_from]. unfold get at 1 2.
    destruct (@at_index_some _ boundaries i) as [a Ea]; [lia|].
    destruct (@at_index_some _ boundaries (i + 1)) as [b Eb]; [lia|].
    rewrite Ea. cbn [bind]. rewrite Eb. cbn [bind].
    destruct (IH (i + 1)%Z (push acc (end_ a, start b))) as (rs & Hrs & Hlen & Hold & Hnew);
      [lia | lia | rewrite len_push; lia |].
    exists rs. split; [exact Hrs|]. split; [lia|]. split.
    + intros j Hj. rewrite Hold by lia. apply at_index_push_old. lia.
    + intros j Hj. destruct (Z.eq_dec j i) as [->|Hne].
      * rewrite Hold by lia. rewrite <- Hacc at 1. rewrite at_index_push_new.
        unfold band. now rewrite Ea, Eb.
      * apply Hnew. lia.
Qed.

(** Lines 98-109 never read a boundary that is not there, and list the
    bands in order. *)
Lemma ranges_spec (boundaries : list (Boundary num)) :
  exists rs,
    ranges boundaries (len boundaries - 1) = Ok rs /\
    forall i, (0 <= i < len boundaries - 1)%Z ->
              at_index rs i = band boundaries i.
Proof.
  unfold ranges, forM_lt.
  destruct (Z_le_gt_dec (len boundaries - 1) 0) as [Hnone|Hsome].
  - (* fewer than two boundaries: the loop body never runs *)
    replace (Z.to_nat (len boundaries - 1)) with O by lia.
    exists []. split; [reflexivity|]. intros i Hi. lia.
  - destruct (ranges_loop boundaries (Z.to_nat (len boundaries - 1)) 0%Z [])
      as (rs & Hrs & _ & _ & Hnew); [lia | lia | reflexivity |].
    exists rs. split; [exact Hrs|]. intros i Hi. apply Hnew. lia.
Qed.

(** Whatever was on the shared canvas before, a cell leaves on it what
    it would have left on a fresh one. *)
Lemma paint_fresh (cv cv' : Canvas num) (image : HTMLImageElement num)
      (crop : CropRect num) (targetW targetH : num) :
  paint cv image crop targetW targetH = paint cv' image crop targetW targetH.
Proof. reflexivity. Qed.

Section Pass.
Variables (env : Browser num) (image : HTMLImageElement num)
          (gl : GridLines num) (quality : num)
          (optimizeResolution : bool) (outputFormat : Format)
          (hRanges vRanges : list (num * num)).
Hypothesis hRanges_bands :
  forall i, (0 <= i < len (horizontal gl) - 1)%Z ->
            at_index hRanges i = band (horizontal gl) i.
Hypothesis vRanges_bands :
  forall i, (0 <= i < len (vertical gl) - 1)%Z ->
            at_index vRanges i = band (vertical gl) i.

Local Abbreviation numRows := (len (horizontal gl) - 1)%Z.
Local Abbreviation numCols := (len (vertical gl) - 1)%Z.
Local Abbreviation outcome :=
  (attempt env image gl quality optimizeResolution outputFormat).
Local Abbreviation body :=
  (fun cell : Z * Z =>
     sliceCell env image hRanges vRanges quality optimizeResolution outputFormat
               ("image/" ++ format_name outputFormat)%string
               (fst cell) (snd cell)).

(** Lines 118-124 compute the crop rectangle the grid lines define. *)
Lemma cropRect_cellCrop (r c : Z) :
  (0 <= r < numRows)%Z -> (0 <= c < numCols)%Z ->
  exists crop,
    cellCrop gl (naturalWidth image) (naturalHeight image) r c = Some crop /\
    cropRect hRanges vRanges (naturalWidth image) (naturalHeight image) r c
    = Ok crop.
Proof.
  intros Hr Hc. unfold cellCrop, cropRect, get.
  rewrite hRanges_bands, vRanges_bands by assumption.
  destruct (@band_some (horizontal gl) r Hr) as [[y0 y1] ->].
  destruct (@band_some (vertical gl) c Hc) as [[x0 x1] ->].
  cbn [bind fst snd]. eexists. split; reflexivity.
Qed.

(** One iteration of the inner loop (lines 117-172). *)
Lemma sliceCell_step (cell : Z * Z) (acc : list SliceResult) (index : Z)
      (cv : Canvas num) :
  In cell (cells numRows numCols) ->
  exists cv',
    body cell (acc, index, cv)
    = Ok (acc ++ collect outcome [cell] index,
          match outcome cell with None => index | Some _ => (index + 1)%Z end,
          cv').
Proof.
  destruct cell as [r c]. intros Hin. apply in_cells in Hin as [Hr Hc].
  destruct (cropRect_cellCrop r c Hr Hc) as (crop & Hspec & Hcode).
  unfold sliceCell, attempt, collect. cbn [fst snd].
  rewrite Hcode, Hspec. cbn [bind].
  destruct (zeroArea crop).
  - exists cv. now rewrite app_nil_r.
  - unfold encodeTile, tileCanvas.
    destruct (targetSize optimizeResolution (sliceW crop) (sliceH crop))
      as [targetW targetH].
    rewrite (paint_fresh cv createCanvas).
    destruct (toBlob env _ _ _) as [blob|]; cbn [option_map];
      eexists; [reflexivity|]. now rewrite app_nil_r.
Qed.

Lemma collect_cons (cell : Z * Z) (rest : list (Z * Z)) (index : Z) :
  collect outcome (cell :: rest) index
  = collect outcome [cell] index
      ++ collect outcome rest
           (match outcome cell with None => index | Some _ => (index + 1)%Z end).
Proof.
  simpl. destruct (outcome cell) as [[url|]|]; reflexivity.
Qed.

(** The double loop (lines 116-173) over any stretch of the scan. *)
Lemma scan_collect (scan : list (Z * Z)) :
  (forall cell, In cell scan -> In cell (cells numRows numCols)) ->
  forall (acc : list SliceResult) (index : Z) (cv : Canvas num),
  exists index' cv',
    foldM body scan (acc, index, cv)
    = Ok (acc ++ collect outcome scan index, index', cv').
Proof.
  induction scan as [|cell rest IH]; intros Hin acc index cv.
  - exists index, cv. simpl. now rewrite app_nil_r.
  - destruct (sliceCell_step cell acc index cv) as [cv1 Hstep];
      [apply Hin; left; reflexivity|].
    cbn [foldM]. rewrite Hstep. cbn [bind].
    destruct (IH (fun x Hx => Hin x (or_intror Hx))
                 (acc ++ collect outcome [cell] index)
                 (match outcome cell with None => index | Some _ => (index + 1)%Z end)
                 cv1) as (index' & cv' & Hrest).
    exists index', cv'. rewrite Hrest, (collect_cons cell rest).
    now rewrite app_assoc.
Qed.

End Pass.

(** The slicing pass never throws, and its tiles are those of the
    row-major scan of the grid's cells. *)
Lemma sliceImage_collect (env : Browser num) (image : HTMLImageElement num)
      (gl : GridLines num) (quality : num) (optimizeResolution : bool)
      (outputFormat : Format) :
  sliceImage env image gl quality optimizeResolution outputFormat
  = Ok (collect (attempt env image gl quality optimizeResolution outputFormat)
                (cells (len (horizontal gl) - 1) (len (vertical gl) - 1)) 0).
Proof.
  unfold sliceImage.
  destruct (ranges_spec (horizontal gl)) as (hRanges & -> & Hh).
  destruct (ranges_spec (vertical gl)) as (vRanges & -> & Hv).
  cbn [bind]. rewrite nested_for_is_scan. cbv beta.
  destruct (scan_collect env image gl quality optimizeResolution outputFormat
              hRanges vRanges Hh Hv
              (cells (len (horizontal gl) - 1) (len (vertical gl) - 1))
              (fun _ H => H) [] 0%Z createCanvas) as (index' & cv' & ->).
  reflexivity.
Qed.

End SlicingFacts.

(* ================================================================== *)
(** * ResultCollection: the tiles of a scan *)

(** A tile comes from a cell of the scan whose encode gave its payload,
    and its index counts the cells before it that were not skipped. *)
Lemma collect_sound (outcome : Z * Z -> option (option string))
      (scan : list (Z * Z)) :
  forall (index0 : Z) (t : SliceResult),
    In t (collect outcome scan index0) ->
    exists pre post,
      scan = pre ++ (row t, col t) :: post /\
      outcome (row t, col t) = Some (Some (dataUrl t)) /\
      index t = (index0 + len (filter (attempted outcome) pre))%Z.
Proof.
  induction scan as [|[r c] rest IH]; intros index0 t Hin; simpl in Hin.
  - contradiction.
  - destruct (outcome (r, c)) as [[url|]|] eqn:E.
    + destruct Hin as [<-|Hin].
      * exists [], rest. cbn. split; [reflexivity|]. split; [exact E|]. lia.
      * destruct (IH _ _ Hin) as (pre & post & -> & Ho & Hi).
        exists ((r, c) :: pre), post. split; [reflexivity|]. split; [exact Ho|].
        cbn [filter]. unfold attempted at 1. rewrite E.
        unfold len in *. cbn [List.length]. lia.
    + destruct (IH _ _ Hin) as (pre & post & -> & Ho & Hi).
      exists ((r, c) :: pre), post. split; [reflexivity|]. split; [exact Ho|].
      cbn [filter]. unfold attempted at 1. rewrite E.
      unfold len in *. cbn [List.length]. lia.
    + destruct (IH _ _ Hin) as (pre & post & -> & Ho & Hi).
      exists ((r, c) :: pre), post. split; [reflexivity|]. split; [exact Ho|].
      cbn [filter]. unfold attempted at 1. rewrite E. exact Hi.
Qed.

(** Every cell of the scan whose encode gave a payload has its tile. *)
Lemma collect_complete (outcome : Z * Z -> option (option string))
      (scan : list (Z * Z)) (r c : Z) (url : string) :
  In (r, c) scan -> outcome (r, c) = Some (Some url) ->
  forall index0 : Z,
    exists t, In t (collect outcome scan index0) /\
              row t = r /\ col t = c /\ dataUrl t = url.
Proof.
  intros Hin Ho. induction scan as [|cell rest IH]; intros index0.
  - contradiction.
  - destruct Hin as [->|Hin].
    + simpl. rewrite Ho. eexists. split; [left; reflexivity|]. now cbn.
    + simpl. destruct (outcome cell) as [[url'|]|].
      * destruct (IH Hin (index0 + 1)%Z) as (t & Ht & Hrest).
        exists t. split; [right; exact Ht | exact Hrest].
      * apply IH, Hin.
      * apply IH, Hin.
Qed.

Section HandleSliceFacts.
Context {num : Type} {N : JSNumber num}.
Local Open Scope js_scope.

(** [handleSlice] returns: none of its array reads is out of range. *)
Lemma handleSlice_returns (env : Browser num) (s : AppState num) :
  exists s', handleSlice env s = Ok s'.
Proof.
  unfold handleSlice. destruct (image s) as [img|]; [|eauto].
  destruct (getContext2d env); cbn [negb]; [|eauto].
  rewrite sliceImage_collect. cbn [bind]. eauto.
Qed.

(** With an image and a drawing context, the new [slices] are the tiles
    of the scan. *)
Lemma handleSlice_slices (env : Browser num) (s : AppState num)
      (img : HTMLImageElement num) :
  image s = Some img -> getContext2d env = true ->
  slicesAfter (handleSlice env s)
  = collect (attempt env img (gridLines s) (quality s)
                     (optimizeResolution s) (outputFormat s))
            (cells (len (horizontal (gridLines s)) - 1)
                   (len (vertical (gridLines s)) - 1)) 0.
Proof.
  intros Himg Hctx. unfold handleSlice. rewrite Himg, Hctx. cbn [negb].
  cbn [setIsSlicing gridLines quality optimizeResolution outputFormat].
  rewrite sliceImage_collect. reflexivity.
Qed.

(** [handleSlice] changes nothing of what it reads. *)
Lemma handleSlice_keeps_inputs (env : Browser num) (s s' : AppState num) :
  handleSlice env s = Ok s' -> sliceInputs s' = sliceInputs s.
Proof.
  unfold handleSlice. destruct (image s) as [img|] eqn:Himg.
  - destruct (getContext2d env); cbn [negb].
    + rewrite sliceImage_collect. cbn [bind]. intros [= <-].
      unfold sliceInputs. cbn. now rewrite Himg.
    + intros [= <-]. unfold sliceInputs. cbn. now rewrite Himg.
  - now intros [= <-].
Qed.

Lemma attempted_encoded (env : Browser num) (img : HTMLImageElement num)
      (gl : GridLines num) (quality : num) (optimizeResolution : bool)
      (outputFormat : Format) (cell : Z * Z) :
  attempted (attempt env img gl quality optimizeResolution outputFormat) cell
  = encoded img gl cell.
Proof.
  unfold attempted, attempt, encoded.
  destruct (cellCrop gl _ _ _ _) as [crop|]; [|reflexivity].
  destruct (zeroArea crop); reflexivity.
Qed.

Lemma filter_attempted_encoded (env : Browser num) (img : HTMLImageElement num)
      (gl : GridLines num) (quality : num) (optimizeResolution : bool)
      (outputFormat : Format) (l : list (Z * Z)) :
  filter (attempted (attempt env img gl quality optimizeResolution outputFormat)) l
  = filter (encoded img gl) l.
Proof.
  induction l as [|cell l IH]; [reflexivity|]. cbn [filter].
  now rewrite attempted_encoded, IH.
Qed.

End HandleSliceFacts.

(* ================================================================== *)
(** * The slicing operation: statements *)

Section HandleSliceClaims.
Context {num : Type} {N : JSNumber num}.
Local Open Scope js_scope.

Lemma cellCrop_in_cells (gl : GridLines num) (W H : num) (r c : Z)
      (crop : CropRect num) :
  cellCrop gl W H r c = Some crop ->
  In (r, c) (cells (len (horizontal gl) - 1) (len (vertical gl) - 1)).
Proof.
  unfold cellCrop. intros Hcrop.
  destruct (band (horizontal gl) r) as [[y0 y1]|] eqn:Eh; [|discriminate].
  destruct (band (vertical gl) c) as [[x0 x1]|] eqn:Ev; [|discriminate].
  apply band_in_range in Eh, Ev. apply in_cells. lia.
Qed.

(** C1, as amended.  Scanning the cells in row-major order, a cell
    whose crop width or height is <= 0 produces no tile and does NOT
    advance the sequential index ([continue] jumps over [index++]); the
    index advances once for every other cell, whether or not its encode
    gave a payload.  So the index of an emitted tile is the number of
    cells of positive area scanned before its own - not its position
    among all cells, and not its position among the emitted tiles. *)
Theorem index_counts_cells_of_positive_area
        (env : Browser num) (s : AppState num) (img : HTMLImageElement num) :
  image s = Some img -> getContext2d env = true ->
  (forall r c crop,
      cellCrop (gridLines s) (naturalWidth img) (naturalHeight img) r c
        = Some crop ->
      zeroArea crop = true ->
      forall t, In t (slicesAfter (handleSlice env s)) ->
                (row t, col t) <> (r, c)) /\
  (forall t, In t (slicesAfter (handleSlice env s)) ->
     exists pre post,
       cells (len (horizontal (gridLines s)) - 1)
             (len (vertical (gridLines s)) - 1)
         = pre ++ (row t, col t) :: post /\
       index t = len (filter (encoded img (gridLines s)) pre)).
Proof.
  intros Himg Hctx. rewrite (handleSlice_slices env s img Himg Hctx). split.
  - intros r c crop Hcrop Hzero t Hin [= Hr Hc].
    apply collect_sound in Hin as (_ & _ & _ & Hout & _).
    rewrite Hr, Hc in Hout. unfold attempt in Hout. cbn [fst snd] in Hout.
    rewrite Hcrop, Hzero in Hout. discriminate.
  - intros t Hin.
    apply collect_sound in Hin as (pre & post & Hscan & _ & Hidx).
    exists pre, post. split; [exact Hscan|].
    rewrite Hidx, filter_attempted_encoded. lia.
Qed.

(** C6.  The crop rectangle of cell (r, c) is the gap between adjacent
    gutters: its pixel origin is (vertical[c].end/100)*imageWidth and
    (horizontal[r].end/100)*imageHeight, it runs to
    (vertical[c+1].start/100)*imageWidth and
    (horizontal[r+1].start/100)*imageHeight, and its width and height
    are max(0, end - start) of those pixel bands.  The computation is
    the function [cropRect] of the ranges, which are the function
    [ranges] of the grid lines, and of the image's two dimensions. *)
Theorem cropRect_is_gap_between_gutters
        (gl : GridLines num) (imageWidth imageHeight : num) (r c : Z)
        (top bottom left right : Boundary num) :
  at_index (horizontal gl) r = Some top ->
  at_index (horizontal gl) (r + 1) = Some bottom ->
  at_index (vertical gl) c = Some left ->
  at_index (vertical gl) (c + 1) = Some right ->
  exists hRanges vRanges,
    ranges (horizontal gl) (len (horizontal gl) - 1) = Ok hRanges /\
    ranges (vertical gl) (len (vertical gl) - 1) = Ok vRanges /\
    cropRect hRanges vRanges imageWidth imageHeight r c
    = Ok {| xStartOrig := (end_ left / lit 100) * imageWidth;
            yStartOrig := (end_ top / lit 100) * imageHeight;
            sliceW := Math_max (lit 0)
                        ((start right / lit 100) * imageWidth
                         - (end_ left / lit 100) * imageWidth);
            sliceH := Math_max (lit 0)
                        ((start bottom / lit 100) * imageHeight
                         - (end_ top / lit 100) * imageHeight) |}.
Proof.
  intros Htop Hbottom Hleft Hright.
  destruct (ranges_spec (horizontal gl)) as (hRanges & Eh & Hh).
  destruct (ranges_spec (vertical gl)) as (vRanges & Ev & Hv).
  exists hRanges, vRanges. split; [exact Eh|]. split; [exact Ev|].
  pose proof (at_index_in_range _ _ _ Htop).
  pose proof (at_index_in_range _ _ _ Hbottom).
  pose proof (at_index_in_range _ _ _ Hleft).
  pose proof (at_index_in_range _ _ _ Hright).
  unfold cropRect, get. rewrite Hh, Hv by lia. unfold band.
  rewrite Htop, Hbottom, Hleft, Hright. reflexivity.
Qed.

(** C8.  The slicing operation always completes without throwing; when
    the encoder produces no payload for a cell that tile is simply
    absent from the result, while every cell of positive area whose
    encode did produce a payload has its tile there; and the result
    holds nothing else: every tile carries the payload of its own cell's
    encode. *)
Theorem encode_failures_are_absorbed (env : Browser num) (s : AppState num) :
  (exists s', handleSlice env s = Ok s') /\
  (forall img, image s = Some img -> getContext2d env = true ->
   forall r c crop,
     cellCrop (gridLines s) (naturalWidth img) (naturalHeight img) r c
       = Some crop ->
     zeroArea crop = false ->
     match encodeTile env img (quality s) (optimizeResolution s)
                      (outputFormat s) crop with
     | None =>
         forall t, In t (slicesAfter (handleSlice env s)) ->
                   (row t, col t) <> (r, c)
     | Some url =>
         exists t, In t (slicesAfter (handleSlice env s)) /\
                   row t = r /\ col t = c /\ dataUrl t = url
     end) /\
  (forall img, image s = Some img -> getContext2d env = true ->
   forall t, In t (slicesAfter (handleSlice env s)) ->
     exists crop,
       cellCrop (gridLines s) (naturalWidth img) (naturalHeight img)
                (row t) (col t) = Some crop /\
       zeroArea crop = false /\
       encodeTile env img (quality s) (optimizeResolution s)
                  (outputFormat s) crop = Some (dataUrl t)).
Proof.
  split; [apply handleSlice_returns|]. split; cycle 1.
  { intros img Himg Hctx t Hin.
    rewrite (handleSlice_slices env s img Himg Hctx) in Hin.
    apply collect_sound in Hin as (_ & _ & _ & Ht & _).
    unfold attempt in Ht. cbn [fst snd] in Ht.
    destruct (cellCrop _ _ _ _ _) as [crop|]; [|discriminate].
    exists crop. destruct (zeroArea crop); [discriminate|].
    injection Ht as Ht. now rewrite Ht. }
  intros img Himg Hctx r c crop Hcrop Harea.
  rewrite (handleSlice_slices env s img Himg Hctx).
  assert (Hout : attempt env img (gridLines s) (quality s)
                         (optimizeResolution s) (outputFormat s) (r, c)
                 = Some (encodeTile env img (quality s) (optimizeResolution s)
                                    (outputFormat s) crop)).
  { unfold attempt. cbn [fst snd]. now rewrite Hcrop, Harea. }
  destruct (encodeTile env img _ _ _ crop) as [url|].
  - apply collect_complete; [|exact Hout].
    eapply cellCrop_in_cells, Hcrop.
  - intros t Hin [= Hr Hc].
    apply collect_sound in Hin as (_ & _ & _ & Ht & _).
    rewrite Hr, Hc, Hout in Ht. discriminate.
Qed.

(** C9.  Two invocations of the slicing operation on the same image,
    grid lines and slice configuration (quality, optimizeResolution,
    outputFormat) produce the same sequence of tiles - same length,
    same index, row and col, same payloads - whatever else differs in
    the state; in particular invoking it again on its own result
    reproduces the tiles.  The encoder is a function of what it is
    given. *)
Theorem handleSlice_deterministic (env : Browser num) (s1 s2 : AppState num) :
  sliceInputs s1 = sliceInputs s2 ->
  image s1 <> None -> getContext2d env = true ->
  slicesAfter (handleSlice env s1) = slicesAfter (handleSlice env s2) /\
  (forall s1', handleSlice env s1 = Ok s1' ->
               slicesAfter (handleSlice env s1')
               = slicesAfter (handleSlice env s1)).
Proof.
  intros Hsame Himg Hctx.
  destruct (image s1) as [img|] eqn:E1; [clear Himg | congruence].
  assert (Hrun : forall s, sliceInputs s = sliceInputs s1 ->
            slicesAfter (handleSlice env s)
            = slicesAfter (handleSlice env s1)).
  { intros s Hs. unfold sliceInputs in Hs.
    injection Hs as Hi Hg Hq Ho Hf. rewrite E1 in Hi.
    rewrite (handleSlice_slices env s img Hi Hctx),
            (handleSlice_slices env s1 img E1 Hctx).
    now rewrite Hg, Hq, Ho, Hf. }
  split.
  - symmetry. apply Hrun. now symmetry.
  - intros s1' Hs1'. apply Hrun. eapply handleSlice_keeps_inputs, Hs1'.
Qed.

(** C10.  Whatever the grid lines - axes with no boundary or a single
    one included - the slicing operation returns: no read of
    horizontal[i], horizontal[i+1], vertical[c], vertical[c+1] (nor of
    the two range arrays) is out of range, which is what would throw.
    And when an axis has fewer than two boundaries the result list is
    empty. *)
Theorem handleSlice_reads_in_range (env : Browser num) (s : AppState num) :
  (exists s', handleSlice env s = Ok s') /\
  (forall img, image s = Some img -> getContext2d env = true ->
     (len (horizontal (gridLines s)) < 2 \/ len (vertical (gridLines s)) < 2)%Z ->
     slicesAfter (handleSlice env s) = []).
Proof.
  split; [apply handleSlice_returns|].
  intros img Himg Hctx Hfew.
  rewrite (handleSlice_slices env s img Himg Hctx).
  rewrite cells_empty by lia. reflexivity.
Qed.

End HandleSliceClaims.

(* ================================================================== *)
(** * Binary64: the order facts the clamp needs *)

Module Binary64Facts.

(** The instance behaves as JavaScript does on the corner cases:
    [Math.max(+0, -0)] is [+0], [Math.min(+0, -0)] is [-0], NaN is
    contagious and compares false, [0.1 + 0.2 <= 0.3] fails, and decimal
    literals are the nearest doubles. *)
Example corner_cases :
  Prim2SF (Math_max (lit 0) (PrimFloat.opp (lit 0))) = S754_zero false /\
  Prim2SF (Math_min (lit 0) (PrimFloat.opp (lit 0))) = S754_zero true /\
  PrimFloat.is_nan (Math_max (lit 0) PrimFloat.nan) = true /\
  PrimFloat.is_nan (Math_min (lit 100) PrimFloat.nan) = true /\
  num_le PrimFloat.nan (lit 0) = false /\
  num_le (num_add (lit 0.1) (lit 0.2)) (lit 0.3) = false /\
  Prim2SF (lit 1.5) = S754_finite false 6755399441055744 (-52) /\
  Prim2SF (lit 98.5) = S754_finite false 6931321301499904 (-46).
Proof. repeat split; vm_compute; reflexivity. Qed.

Lemma lt_le (a b : float) :
  PrimFloat.ltb a b = true -> PrimFloat.leb a b = true.
Proof.
  rewrite FloatAxioms.ltb_spec, FloatAxioms.leb_spec. unfold SFltb, SFleb.
  destruct (SFcompare _ _) as [[]|]; congruence.
Qed.

(** A number that is neither below nor above zero is a zero. *)
Lemma neither_side_of_zero (x : float) :
  PrimFloat.is_nan x = false ->
  PrimFloat.ltb PrimFloat.zero x = false ->
  PrimFloat.ltb x PrimFloat.zero = false ->
  exists s, Prim2SF x = S754_zero s.
Proof.
  unfold PrimFloat.is_nan.
  rewrite FloatAxioms.eqb_spec, !FloatAxioms.ltb_spec.
  change (Prim2SF PrimFloat.zero) with (S754_zero false).
  destruct (Prim2SF x) as [s|s| |s m e]; cbn.
  - eauto.
  - destruct s; discriminate.
  - discriminate.
  - destruct s; discriminate.
Qed.

Lemma min_100 (x : float) :
  PrimFloat.is_nan x = false ->
  Binary64.min (lit 100) x = lit 100 \/
  (Binary64.min (lit 100) x = x /\ PrimFloat.ltb x (lit 100) = true).
Proof.
  intros Hnan. unfold Binary64.min. rewrite Hnan.
  change (PrimFloat.is_nan (lit 100) || false) with false.
  destruct (PrimFloat.ltb (lit 100) x); [now left|].
  destruct (PrimFloat.ltb x (lit 100)); [now right|].
  change (PrimFloat.is_zero (lit 100)) with false. now left.
Qed.

(** [Math.max(0, Math.min(100, x))] lies between 0 and 100, unless [x]
    is NaN. *)
Lemma clamp_range_binary64 (x : float) :
  PrimFloat.is_nan x = false ->
  PrimFloat.leb (lit 0) (Math_max (lit 0) (Math_min (lit 100) x)) = true /\
  PrimFloat.leb (Math_max (lit 0) (Math_min (lit 100) x)) (lit 100) = true.
Proof.
  intros Hnan. cbn [Math_max Math_min binary64].
  destruct (min_100 x Hnan) as [-> | [-> Hlt]].
  - split; reflexivity.
  - unfold Binary64.max. rewrite Hnan.
    change (PrimFloat.is_nan (lit 0) || false) with false.
    destruct (PrimFloat.ltb (lit 0) x) eqn:Hpos.
    + split; apply lt_le; assumption.
    + destruct (PrimFloat.ltb x (lit 0)) eqn:Hneg; [split; reflexivity|].
      change (PrimFloat.is_zero (lit 0)) with true. cbv iota.
      destruct (neither_side_of_zero x Hnan Hpos Hneg) as [s Hx].
      rewrite !FloatAxioms.leb_spec, FloatAxioms.add_spec, Hx.
      destruct s; split; reflexivity.
Qed.

End Binary64Facts.

(* ================================================================== *)
(** * Exact arithmetic: the facts the clamp and the cap need *)

Module ExactFacts.
Local Open Scope Q_scope.



Lemma maxDim_pos (optimizeResolution : bool) :
  0 < maxDim (N := exactQ) optimizeResolution.
Proof. destruct optimizeResolution; reflexivity. Qed.

Lemma quotient_pos (m x : Q) : 0 < m -> 0 < x -> 0 < m / x.
Proof.
  intros Hm Hx. apply Qlt_shift_div_l; [exact Hx|]. now rewrite Qmult_0_l.
Qed.





End ExactFacts.

(* ================================================================== *)
(** * TileEncoder: the resolution cap *)



(* ================================================================== *)
(** * DragController *)

Lemma nth_error_mapi_from {A B} (f : A -> Z -> B) (arr : list A) :
  forall (k : Z) (n : nat),
    nth_error (mapi_from k f arr) n
    = option_map (fun a => f a (k + Z.of_nat n)%Z) (nth_error arr n).
Proof.
  induction arr as [|a arr IH]; intros k n.
  - destruct n; reflexivity.
  - destruct n as [|n].
    + cbn. now rewrite Z.add_0_r.
    + cbn [mapi_from nth_error]. rewrite IH. destruct (nth_error arr n); cbn;
        [do 2 f_equal; lia | reflexivity].
Qed.

Lemma at_index_mapi {A B} (f : A -> Z -> B) (arr : list A) (i : Z) :
  at_index (mapi f arr) i = option_map (fun a => f a i) (at_index arr i).
Proof.
  unfold at_index, mapi. destruct (i <? 0)%Z eqn:E; [reflexivity|].
  apply Z.ltb_ge in E. rewrite nth_error_mapi_from.
  destruct (nth_error arr (Z.to_nat i)); cbn; [do 2 f_equal; lia | reflexivity].
Qed.

Lemma len_mapi {A B} (f : A -> Z -> B) (arr : list A) :
  len (mapi f arr) = len arr.
Proof.
  unfold len, mapi. generalize 0%Z as k.
  induction arr as [|a arr IH]; intros k; [reflexivity|].
  cbn [mapi_from List.length]. specialize (IH (k + 1)%Z). lia.
Qed.

Section DragFacts.
Import GridEditor.
Context {num : Type} {N : JSNumber num}.



End DragFacts.


(* ================================================================== *)
(** * Concrete runs *)

Section Runs.
Local Open Scope js_scope.

(** C1, refuted as stated.  In the 1 x 2 grid [Scenario.inverted] the
    scan visits (0,0) then (0,1); cell (0,0) has crop width <= 0 and is
    skipped; the tile of cell (0,1), second in the scan, carries index
    0: the skipped cell did not advance the index. *)
Lemma skipped_cell_does_not_advance_index :
  let s := Scenario.inverted in
  let img := Scenario.photo 1000 1000 in
  image s = Some img /\
  cells (len (horizontal (gridLines s)) - 1) (len (vertical (gridLines s)) - 1)
    = [(0, 0); (0, 1)]%Z /\
  option_map zeroArea
    (cellCrop (gridLines s) (naturalWidth img) (naturalHeight img) 0 0)
    = Some true /\
  map (fun t => (row t, col t, index t))
      (slicesAfter (handleSlice Scenario.browser s))
    = [(0, 1, 0)]%Z.
Proof. cbv zeta. repeat split; vm_compute; reflexivity. Qed.

(** C3, refuted as stated.  On the 5000 x 5000 image the default 1 x 1
    grid crops 4850 x 4850 pixels (1.5% is cut off on every side), and
    the target is 4096 x 4096: not the crop scaled by 4096/5000, in
    binary64 as in exact arithmetic. *)
Lemma single_cell_is_not_scaled_by_4096_over_5000 :
  let s := Scenario.square5000 in
  let img := Scenario.photo 5000 5000 in
  let crop := mkCropRect (of_int 75) (of_int 75) (of_int 4850) (of_int 4850) in
  cellCrop (gridLines s) (naturalWidth img) (naturalHeight img) 0 0 = Some crop /\
  targetSize (optimizeResolution s) (sliceW crop) (sliceH crop)
    = (of_int 4096, of_int 4096) /\
  PrimFloat.ltb (sliceW crop * (lit 4096 / lit 5000)) (of_int 4096) = true /\
  (4850 * (4096 / 5000) < 4096)%Q.
Proof. cbv zeta. repeat split; vm_compute; reflexivity. Qed.

(** C3, as amended.  Slicing the default 1 x 1 grid on a 5000 x 5000
    image with optimizeResolution off scans exactly one cell, whose
    crop is 4850 x 4850 pixels at (75, 75); its target dimensions are
    the crop's scaled by ratio = 4096/4850, that is 4096 x 4096; and
    the result is exactly one tile (index 0, row 0, col 0) when the
    encoder gives a payload for that surface, none otherwise. *)
Theorem single_cell_is_scaled_by_4096_over_4850 :
  forall (toBlob : Canvas float -> string -> option float -> option Blob)
         (readAsDataURL : Blob -> string),
    let env := mkBrowser true toBlob readAsDataURL in
    let s := Scenario.square5000 in
    let img := Scenario.photo 5000 5000 in
    let crop := mkCropRect (of_int 75) (of_int 75) (of_int 4850) (of_int 4850) in
    let ratio := lit 4096 / of_int 4850 in
    cells (len (horizontal (gridLines s)) - 1) (len (vertical (gridLines s)) - 1)
      = [(0, 0)]%Z /\
    cellCrop (gridLines s) (naturalWidth img) (naturalHeight img) 0 0
      = Some crop /\
    targetSize (optimizeResolution s) (sliceW crop) (sliceH crop)
      = (sliceW crop * ratio, sliceH crop * ratio) /\
    (sliceW crop * ratio, sliceH crop * ratio) = (of_int 4096, of_int 4096) /\
    (let exact := targetSize (N := exactQ) false 4850 4850 in
     fst exact == 4850 * (4096 / 4850) /\ fst exact == 4096 /\
     snd exact == 4850 * (4096 / 4850) /\ snd exact == 4096)%Q /\
    slicesAfter (handleSlice env s)
      = match toBlob (tileCanvas img false crop) "image/webp"%string
                     (Some (lit 0.6)) with
        | Some blob => [mkSliceResult (readAsDataURL blob) 0 0 0]
        | None => []
        end.
Proof.
  intros toBlob readAsDataURL. cbv zeta.
  repeat split; vm_compute; reflexivity.
Qed.


End Runs.

(* ================================================================== *)
(** * Export *)

Lemma downloadAll_names (props : SlicePreview.Props) :
  forall k : Z,
    map SlicePreview.name
        (mapi_from k
           (fun slice idx =>
              SlicePreview.mkZipEntry
                ("slice_" ++ SlicePreview.string_of_Z (idx + 1) ++ ".webp")
                (at_index (SlicePreview.split "," (dataUrl slice)) 1))
           (SlicePreview.slices props))
    = map (fun n => ("slice_" ++ SlicePreview.string_of_Z n ++ ".webp")%string)
          (zseq (List.length (SlicePreview.slices props)) (k + 1)).
Proof.
  induction (SlicePreview.slices props) as [|slice rest IH]; intros k;
    [reflexivity|].
  cbn [mapi_from map List.length zseq SlicePreview.name]. now rewrite IH.
Qed.

(** C7: what the code does where the claim fails.  [downloadAll] names
    the entries of the archive slice_1.webp, slice_2.webp, ... by position
    in the [slices] array, whatever the tiles' [index] and whatever the
    output format.  In the run [Scenario.sliver] (PNG output; the encode of
    cell (0,0) gives no blob) the one tile has index 1 and a PNG payload:
    the archive names it slice_1.webp, while the tile's own download
    button, which does go by [index], names it slice_2.webp. *)
Theorem downloadAll_names_by_position_with_webp_extension :
  (forall (props : SlicePreview.Props) (archive : SlicePreview.Archive),
      SlicePreview.downloadAll false props = Some archive ->
      map SlicePreview.name (SlicePreview.entries archive)
      = map (fun n => ("slice_" ++ SlicePreview.string_of_Z n ++ ".webp")%string)
            (zseq (List.length (SlicePreview.slices props)) 1)) /\
  (let tile := mkSliceResult "data:image/png;base64,AAAA" 1 0 1 in
   renderSlicePreview (Scenario.sliced Scenario.sliver)
     = Some (SlicePreview.mkProps [tile] 2 png) /\
   option_map (fun archive => map SlicePreview.name (SlicePreview.entries archive))
              (SlicePreview.downloadAll false (SlicePreview.mkProps [tile] 2 png))
     = Some ["slice_1.webp"%string] /\
   SlicePreview.link_download (SlicePreview.tileDownload tile)
     = "slice_2.webp"%string).
Proof.
  split.
  - intros props archive. unfold SlicePreview.downloadAll. intros [= <-].
    cbn [SlicePreview.entries]. unfold mapi. apply downloadAll_names.
  - cbv zeta. repeat split; vm_compute; reflexivity.
Qed.

(* ================================================================== *)
(** * The statements at concrete inputs *)

Section Witnesses.
Local Open Scope js_scope.

(** [generateBoundaries_spec] at count = 3, in binary64. *)
Lemma generateBoundaries_spec_at_3 :
  len (generateBoundaries (N := binary64) 3) = (3 + 1)%Z /\
  at_index (generateBoundaries (N := binary64) 3) 0
    = Some {| start := lit 0; end_ := lit 1.5 |} /\
  at_index (generateBoundaries (N := binary64) 3) 3
    = Some {| start := lit 98.5; end_ := lit 100 |} /\
  forall i : Z, (0 < i < 3)%Z ->
    at_index (generateBoundaries (N := binary64) 3) i
    = Some {| start := of_int i * (lit 100 / of_int 3) - lit 1;
              end_ := of_int i * (lit 100 / of_int 3) + lit 1 |}.
Proof. apply (generateBoundaries_spec (N := binary64) 3). lia. Defined.

(** [index_counts_cells_of_positive_area] in the run [Scenario.sliver]:
    both cells have positive area, the encode of the first fails, and
    the tile of the second has index 1. *)
Lemma index_counts_cells_of_positive_area_in_sliver :
  let env := Scenario.browser in
  let s := Scenario.sliver in
  let img := Scenario.photo 400 400 in
  (forall r c crop,
      cellCrop (gridLines s) (naturalWidth img) (naturalHeight img) r c
        = Some crop ->
      zeroArea crop = true ->
      forall t, In t (slicesAfter (handleSlice env s)) ->
                (row t, col t) <> (r, c)) /\
  (forall t, In t (slicesAfter (handleSlice env s)) ->
     exists pre post,
       cells (len (horizontal (gridLines s)) - 1)
             (len (vertical (gridLines s)) - 1)
         = pre ++ (row t, col t) :: post /\
       index t = len (filter (encoded img (gridLines s)) pre)).
Proof.
  apply (index_counts_cells_of_positive_area
           Scenario.browser Scenario.sliver (Scenario.photo 400 400));
    reflexivity.
Defined.


(** [cropRect_is_gap_between_gutters] for cell (0, 1) of
    [Scenario.inverted]. *)
Lemma cropRect_is_gap_between_gutters_in_inverted :
  let gl := gridLines Scenario.inverted in
  let top := mkBoundary (lit 0) (lit 1.5) in
  let bottom := mkBoundary (lit 98.5) (lit 100) in
  let left := mkBoundary (lit 0.5) (lit 51) in
  let right := mkBoundary (lit 98.5) (lit 100) in
  exists hRanges vRanges,
    ranges (horizontal gl) (len (horizontal gl) - 1) = Ok hRanges /\
    ranges (vertical gl) (len (vertical gl) - 1) = Ok vRanges /\
    cropRect hRanges vRanges (of_int 1000) (of_int 1000) 0 1
    = Ok {| xStartOrig := (end_ left / lit 100) * of_int 1000;
            yStartOrig := (end_ top / lit 100) * of_int 1000;
            sliceW := Math_max (lit 0)
                        ((start right / lit 100) * of_int 1000
                         - (end_ left / lit 100) * of_int 1000);
            sliceH := Math_max (lit 0)
                        ((start bottom / lit 100) * of_int 1000
                         - (end_ top / lit 100) * of_int 1000) |}.
Proof.
  apply (cropRect_is_gap_between_gutters
           (gridLines Scenario.inverted) (of_int 1000) (of_int 1000) 0 1);
    reflexivity.
Defined.

(** [encode_failures_are_absorbed] in the run [Scenario.sliver]. *)
Lemma encode_failures_are_absorbed_in_sliver :
  let env := Scenario.browser in
  let s := Scenario.sliver in
  (exists s', handleSlice env s = Ok s') /\
  (forall img, image s = Some img -> getContext2d env = true ->
   forall r c crop,
     cellCrop (gridLines s) (naturalWidth img) (naturalHeight img) r c
       = Some crop ->
     zeroArea crop = false ->
     match encodeTile env img (quality s) (optimizeResolution s)
                      (outputFormat s) crop with
     | None =>
         forall t, In t (slicesAfter (handleSlice env s)) ->
                   (row t, col t) <> (r, c)
     | Some url =>
         exists t, In t (slicesAfter (handleSlice env s)) /\
                   row t = r /\ col t = c /\ dataUrl t = url
     end) /\
  (forall img, image s = Some img -> getContext2d env = true ->
   forall t, In t (slicesAfter (handleSlice env s)) ->
     exists crop,
       cellCrop (gridLines s) (naturalWidth img) (naturalHeight img)
                (row t) (col t) = Some crop /\
       zeroArea crop = false /\
       encodeTile env img (quality s) (optimizeResolution s)
                  (outputFormat s) crop = Some (dataUrl t)).
Proof. exact (encode_failures_are_absorbed Scenario.browser Scenario.sliver). Defined.

(** [handleSlice_deterministic] for [Scenario.sliver] and a state that
    differs from it in the grid configuration, the previous slices and
    the two flags. *)
Lemma handleSlice_deterministic_in_sliver :
  let env := Scenario.browser in
  let s1 := Scenario.sliver in
  let s2 := Scenario.stale Scenario.sliver in
  slicesAfter (handleSlice env s1) = slicesAfter (handleSlice env s2) /\
  (forall s1', handleSlice env s1 = Ok s1' ->
               slicesAfter (handleSlice env s1')
               = slicesAfter (handleSlice env s1)).
Proof.
  apply (handleSlice_deterministic
           Scenario.browser Scenario.sliver (Scenario.stale Scenario.sliver));
    [reflexivity | discriminate | reflexivity].
Defined.

(** [handleSlice_reads_in_range] for an image on the initial, empty
    grid lines (lines 14-17). *)
Lemma handleSlice_reads_in_range_on_empty_grid :
  let env := Scenario.browser in
  let s := setGridLines Scenario.square5000 (mkGridLines [] []) in
  (exists s', handleSlice env s = Ok s') /\
  (forall img, image s = Some img -> getContext2d env = true ->
     (len (horizontal (gridLines s)) < 2 \/ len (vertical (gridLines s)) < 2)%Z ->
     slicesAfter (handleSlice env s) = []).
Proof.
  exact (handleSlice_reads_in_range
           Scenario.browser
           (setGridLines Scenario.square5000 (mkGridLines [] []))).
Defined.

(** A drag may leave [start] beyond [end]: moving the start of the
    middle vertical boundary (49%..51%) to 60% leaves 60%..51%. *)
Lemma drag_can_invert_a_boundary :
  at_index
    (vertical (gridLines
       (Scenario.drag GridEditor.v 1 GridEditor.side_start 480 400
          (Scenario.loaded (Scenario.photo 1000 1000) 1 2 true webp)))) 1
  = Some {| start := lit 60; end_ := lit 51 |}.
Proof. vm_compute. reflexivity. Qed.

End Witnesses.

(* ================================================================== *)
(** * SlicePreview: the archive and the sizes *)







Lemma downloadAll_entry_names (props : SlicePreview.Props)
      (archive : SlicePreview.Archive) :
  SlicePreview.downloadAll false props = Some archive ->
  map SlicePreview.name (SlicePreview.entries archive)
  = map sliceName (zseq (List.length (SlicePreview.slices props)) 1).
Proof.
  unfold SlicePreview.downloadAll. intros [= <-].
  cbn [SlicePreview.entries]. unfold mapi. apply downloadAll_names.
Qed.


(** ** Splitting a data URL *)

Lemma split_nonempty (sep : ascii) (s : string) : SlicePreview.split sep s <> [].
Proof.
  destruct s as [|ch s]; cbn; [discriminate|].
  destruct (Ascii.eqb ch sep); [discriminate|].
  destruct (SlicePreview.split sep s); discriminate.
Qed.

Lemma split_without_separator (sep : ascii) (s : string) :
  contains sep s = false -> SlicePreview.split sep s = [s].
Proof.
  induction s as [|ch s IH]; cbn; [reflexivity|].
  destruct (Ascii.eqb ch sep); cbn; [discriminate|].
  intros H. now rewrite IH.
Qed.

Lemma split_at_first_separator (sep : ascii) (header rest : string) :
  contains sep header = false ->
  SlicePreview.split sep (header ++ String sep rest)
  = header :: SlicePreview.split sep rest.
Proof.
  induction header as [|ch header IH]; cbn.
  - intros _. now rewrite Ascii.eqb_refl.
  - destruct (Ascii.eqb ch sep); cbn; [discriminate|].
    intros H. now rewrite IH.
Qed.

Lemma contains_split (sep : ascii) (s : string) :
  contains sep s = true ->
  exists header rest,
    s = (header ++ String sep rest)%string /\ contains sep header = false.
Proof.
  induction s as [|ch s IH]; cbn; [discriminate|].
  destruct (Ascii.eqb ch sep) eqn:E; cbn.
  - intros _. apply Ascii.eqb_eq in E. subst ch.
    exists EmptyString, s. split; reflexivity.
  - intros H. destruct (IH H) as (header & rest & -> & Hh).
    exists (String ch header), rest. split; [reflexivity|]. cbn. now rewrite E.
Qed.

Lemma second_piece (sep : ascii) (s : string) :
  at_index (SlicePreview.split sep s) 1
  = if contains sep s
    then match SlicePreview.split sep s with
         | _ :: piece :: _ => Some piece
         | _ => None
         end
    else None.
Proof.
  destruct (contains sep s) eqn:E.
  - destruct (contains_split sep s E) as (header & rest & -> & Hh).
    rewrite split_at_first_separator by exact Hh.
    destruct (SlicePreview.split sep rest) eqn:Er; [|reflexivity].
    now apply split_nonempty in Er.
  - now rewrite split_without_separator.
Qed.

(** X2.  The data [downloadAll] files under the entry of the slice at
    position [k] is the part of the slice's data URL between its first
    comma and its next one: for a data URL [header,payload] with no
    comma in the header or the payload - the form
    [data:image/png;base64,....] - it is exactly the payload; for a data
    URL without a comma it is [undefined].  The entry's name is
    [slice_(k+1).webp]. *)
Theorem downloadAll_files_the_payload
        (props : SlicePreview.Props) (archive : SlicePreview.Archive)
        (k : Z) (slice : SliceResult) :
  SlicePreview.downloadAll false props = Some archive ->
  at_index (SlicePreview.slices props) k = Some slice ->
  exists entry,
    at_index (SlicePreview.entries archive) k = Some entry /\
    SlicePreview.name entry = sliceName (k + 1) /\
    (forall header payload,
        dataUrl slice = (header ++ String "," payload)%string ->
        contains "," header = false -> contains "," payload = false ->
        SlicePreview.data entry = Some payload) /\
    (contains "," (dataUrl slice) = false -> SlicePreview.data entry = None).
Proof.
  unfold SlicePreview.downloadAll. intros [= <-] Hk.
  cbn [SlicePreview.entries]. rewrite at_index_mapi, Hk. cbn [option_map].
  eexists. split; [reflexivity|]. cbn [SlicePreview.name SlicePreview.data].
  split; [reflexivity|]. split.
  - intros header payload -> Hheader Hpayload.
    rewrite split_at_first_separator by exact Hheader.
    now rewrite split_without_separator.
  - intros Hnone. now rewrite split_without_separator.
Qed.

(** ** Sizes *)

Lemma base64Length_throws (slice : SliceResult) :
  SlicePreviewSizes.base64Length slice = TypeError
  <-> contains "," (dataUrl slice) = false.
Proof.
  unfold SlicePreviewSizes.base64Length. rewrite second_piece.
  destruct (contains "," (dataUrl slice)) eqn:E.
  - destruct (contains_split _ _ E) as (header & rest & Hs & Hh).
    rewrite Hs, split_at_first_separator by exact Hh.
    destruct (SlicePreview.split "," rest) eqn:Er;
      [now apply split_nonempty in Er|].
    split; discriminate.
  - split; reflexivity.
Qed.

Lemma estimate_bounds (n : Z) :
  (0 <= n)%Z ->
  (0 <= SlicePreviewSizes.estimate n <= n)%Z.
Proof.
  intros Hn. unfold SlicePreviewSizes.estimate. split.
  - apply Z.div_pos; lia.
  - apply Z.div_le_upper_bound; lia.
Qed.

Lemma totalSize_sum (sizes : list Z) :
  SlicePreviewSizes.totalSize sizes = sumZ sizes.
Proof.
  unfold SlicePreviewSizes.totalSize, sumZ.
  assert (H : forall acc, fold_left (fun a b => (a + b)%Z) sizes acc
                          = (acc + fold_right Z.add 0 sizes)%Z).
  { induction sizes as [|x sizes IH]; intros acc; cbn; [lia|].
    rewrite IH. lia. }
  rewrite H. lia.
Qed.

Lemma split_piece_length (sep : ascii) (s piece : string) :
  In piece (SlicePreview.split sep s) ->
  (String.length piece <= String.length s)%nat.
Proof.
  revert piece; induction s as [|ch s IH]; intros piece; cbn.
  - intros [<-|[]]. cbn. lia.
  - destruct (Ascii.eqb ch sep).
    + intros [<-|Hin]; [cbn; lia|]. specialize (IH _ Hin). lia.
    + destruct (SlicePreview.split sep s) as [|first others] eqn:E.
      * now apply split_nonempty in E.
      * intros [<-|Hin].
        -- cbn. specialize (IH first (or_introl eq_refl)). lia.
        -- specialize (IH piece (or_intror Hin)). lia.
Qed.

Lemma base64Length_bounds (slice : SliceResult) (n : Z) :
  SlicePreviewSizes.base64Length slice = Ok n ->
  (0 <= n <= Z.of_nat (String.length (dataUrl slice)))%Z.
Proof.
  unfold SlicePreviewSizes.base64Length, at_index. cbn.
  destruct (nth_error _ _) as [piece|] eqn:E; [|discriminate].
  intros [= <-]. apply nth_error_In, split_piece_length in E. lia.
Qed.

Lemma sumZ_bounds (sizes : list Z) :
  Forall (fun size => 0 <= size)%Z sizes ->
  (0 <= sumZ sizes)%Z /\ forall size, In size sizes -> (size <= sumZ sizes)%Z.
Proof.
  unfold sumZ. induction 1 as [|x sizes Hx Hrest [IH0 IH]]; cbn [fold_right].
  - split; [lia | contradiction].
  - split; [lia|]. intros size [<-|Hin]; [lia|]. specialize (IH _ Hin). lia.
Qed.

(** X3.  [sliceSizes] throws exactly when some slice's data URL holds no
    comma (there is no second piece to take the length of) - the
    component then fails to render, although [downloadAll] would still
    build its archive.  Otherwise it gives one size per slice, each
    between 0 and the length of that slice's data URL, and [totalSize]
    is their sum, at least as large as any one of them. *)
Theorem sliceSizes_one_per_slice_or_throws (slices : list SliceResult) :
  (SlicePreviewSizes.sliceSizes slices = TypeError
   <-> exists slice, In slice slices /\ contains "," (dataUrl slice) = false) /\
  (forall sizes,
      SlicePreviewSizes.sliceSizes slices = Ok sizes ->
      Forall2 (fun slice size =>
                 0 <= size <= Z.of_nat (String.length (dataUrl slice)))%Z
              slices sizes /\
      SlicePreviewSizes.totalSize sizes = sumZ sizes /\
      (forall size, In size sizes ->
                    (size <= SlicePreviewSizes.totalSize sizes)%Z)).
Proof.
  split.
  - induction slices as [|slice rest IH]; cbn.
    + split; [discriminate | intros [slice [[] _]]].
    + destruct (SlicePreviewSizes.base64Length slice) as [n|] eqn:En; cbn.
      * destruct (SlicePreviewSizes.sliceSizes rest) as [sizes|]; cbn.
        -- split; [discriminate|]. intros [bad [[<-|Hin] Hbad]].
           ++ apply base64Length_throws in Hbad. congruence.
           ++ destruct IH as [_ IH]. discriminate IH. eauto.
        -- split; [|reflexivity]. intros _.
           destruct IH as [IH _]. destruct (IH eq_refl) as [bad [Hin Hbad]].
           exists bad. split; [now right | exact Hbad].
      * split; [|reflexivity]. intros _. exists slice.
        split; [now left | now apply base64Length_throws].
  - intros sizes Hsizes.
    assert (Hall : Forall2 (fun slice size =>
                     0 <= size <= Z.of_nat (String.length (dataUrl slice)))%Z
                     slices sizes).
    { revert sizes Hsizes. induction slices as [|slice rest IH]; cbn.
      - intros sizes [= <-]. constructor.
      - intros sizes.
        destruct (SlicePreviewSizes.base64Length slice) as [n|] eqn:En;
          [|discriminate]. cbn.
        destruct (SlicePreviewSizes.sliceSizes rest) as [others|];
          [|discriminate]. cbn. intros [= <-].
        constructor; [|now apply IH].
        apply base64Length_bounds in En.
        pose proof (estimate_bounds n). lia. }
    split; [exact Hall|]. split; [apply totalSize_sum|].
    rewrite totalSize_sum. apply sumZ_bounds.
    clear Hsizes. induction Hall; constructor; [lia | assumption].
Qed.

(* ================================================================== *)
(** * GridEditor: how drags compose, and what is drawn *)

Lemma mapi_from_mapi_from {A B C} (f : A -> Z -> B) (g : B -> Z -> C)
      (arr : list A) :
  forall k, mapi_from k g (mapi_from k f arr)
            = mapi_from k (fun a i => g (f a i) i) arr.
Proof.
  induction arr as [|a arr IH]; intros k; cbn; [reflexivity|]. now rewrite IH.
Qed.

Lemma mapi_from_same {A B} (f g : A -> Z -> B) (arr : list A) :
  (forall a i, f a i = g a i) ->
  forall k, mapi_from k f arr = mapi_from k g arr.
Proof.
  intros Hfg. induction arr as [|a arr IH]; intros k; cbn; [reflexivity|].
  now rewrite Hfg, IH.
Qed.

Lemma mapi_from_unchanged {A} (f : A -> Z -> A) (arr : list A) :
  forall k,
    (forall a i, (k <= i < k + len arr)%Z -> f a i = a) ->
    mapi_from k f arr = arr.
Proof.
  induction arr as [|a arr IH]; intros k Hf; cbn; [reflexivity|].
  unfold len in *. cbn [List.length] in Hf.
  rewrite Hf by lia. f_equal. apply IH. intros b i Hi. apply Hf. lia.
Qed.

Section DragAlgebra.
Import GridEditor.
Context {num : Type} {N : JSNumber num}.

Lemma withSide_again (b : Boundary num) (sd : Side) (v1 v2 : num) :
  withSide (withSide b sd v1) sd v2 = withSide b sd v2.
Proof. destruct sd; reflexivity. Qed.

Lemma withSide_other (b : Boundary num) (sd1 sd2 : Side) (v1 v2 : num) :
  sd1 <> sd2 ->
  withSide (withSide b sd1 v1) sd2 v2 = withSide (withSide b sd2 v2) sd1 v1.
Proof. destruct sd1, sd2; intros H; try reflexivity; contradiction. Qed.

(** The [map] callback of lines 426-429. *)
Local Abbreviation edit idx sd value :=
  (fun (b : Boundary num) (i : Z) =>
     if negb (i =? idx)%Z then b else withSide b sd value).

Lemma edit_edit_same (idx : Z) (sd : Side) (v1 v2 : num)
      (boundaries : list (Boundary num)) :
  mapi (edit idx sd v2) (mapi (edit idx sd v1) boundaries)
  = mapi (edit idx sd v2) boundaries.
Proof.
  unfold mapi. rewrite mapi_from_mapi_from. apply mapi_from_same.
  intros b i. destruct (i =? idx)%Z; cbn [negb]; [|reflexivity].
  apply withSide_again.
Qed.

Lemma edit_edit_commute (idx1 idx2 : Z) (sd1 sd2 : Side) (v1 v2 : num)
      (boundaries : list (Boundary num)) :
  idx1 <> idx2 \/ sd1 <> sd2 ->
  mapi (edit idx2 sd2 v2) (mapi (edit idx1 sd1 v1) boundaries)
  = mapi (edit idx1 sd1 v1) (mapi (edit idx2 sd2 v2) boundaries).
Proof.
  intros Hdiff. unfold mapi. rewrite !mapi_from_mapi_from.
  apply mapi_from_same. intros b i.
  destruct (i =? idx1)%Z eqn:E1; destruct (i =? idx2)%Z eqn:E2;
    cbn [negb]; try reflexivity.
  apply Z.eqb_eq in E1, E2. destruct Hdiff as [Hidx|Hsd]; [lia|].
  now apply withSide_other.
Qed.

(** X4.  Within one drag only the last pointer position counts: a move
    to [e1] followed by a move to [e2] leaves the grid lines a single
    move to [e2] would have left.  (In particular repeating a move
    changes nothing.) *)
Theorem handleMouseMove_last_move_wins
        (d : Dragging) (rect1 rect2 : DOMRect num)
        (gl : GridLines num) (e1 e2 : MouseEvent num) :
  handleMouseMove (Some d) (Some rect2)
                  (handleMouseMove (Some d) (Some rect1) gl e1) e2
  = handleMouseMove (Some d) (Some rect2) gl e2.
Proof.
  destruct d as [[|] idx sd]; cbn [handleMouseMove type boundaryIdx side
                                    horizontal vertical];
    f_equal; apply edit_edit_same.
Qed.

(** X5.  Drags of two different scalars - different axis, different
    boundary, or the other side of the same boundary - do not interfere:
    done in either order they leave the same grid lines. *)
Theorem handleMouseMove_different_scalars_commute
        (d1 d2 : Dragging) (rect1 rect2 : DOMRect num)
        (gl : GridLines num) (e1 e2 : MouseEvent num) :
  d1 <> d2 ->
  handleMouseMove (Some d2) (Some rect2)
                  (handleMouseMove (Some d1) (Some rect1) gl e1) e2
  = handleMouseMove (Some d1) (Some rect1)
                    (handleMouseMove (Some d2) (Some rect2) gl e2) e1.
Proof.
  intros Hdiff.
  assert (Hscalar : type d1 = type d2 ->
                    boundaryIdx d1 <> boundaryIdx d2 \/ side d1 <> side d2).
  { destruct d1 as [t1 i1 s1], d2 as [t2 i2 s2]. cbn. intros ->.
    destruct (Z.eq_dec i1 i2) as [->|]; [|now left]. right. intros ->.
    now apply Hdiff. }
  destruct d1 as [[|] idx1 sd1], d2 as [[|] idx2 sd2];
    cbn [handleMouseMove type boundaryIdx side horizontal vertical] in *;
    try reflexivity; f_equal; apply edit_edit_commute; now apply Hscalar.
Qed.

(** X6.  A drag whose boundary index is not an index of the edited axis
    (negative, or at or past its length) changes nothing at all. *)
Theorem handleMouseMove_out_of_range_index
        (d : Dragging) (rect : DOMRect num)
        (gl : GridLines num) (e : MouseEvent num) :
  (boundaryIdx d < 0 \/ len (editedAxis d gl) <= boundaryIdx d)%Z ->
  handleMouseMove (Some d) (Some rect) gl e = gl.
Proof.
  destruct gl as [hs vs].
  destruct d as [[|] idx sd]; unfold editedAxis;
    cbn [handleMouseMove type boundaryIdx side horizontal vertical];
    intros Hout; f_equal; unfold mapi; apply mapi_from_unchanged;
    intros b i Hi; destruct (i =? idx)%Z eqn:E; cbn [negb];
    try reflexivity; apply Z.eqb_eq in E; lia.
Qed.

End DragAlgebra.

(** X7.  The red overlay of a boundary is drawn from the smaller of
    [start] and [end] over their distance, so it covers exactly the
    strip between the two, also for a boundary a drag has inverted
    ([start] beyond [end]): in exact arithmetic the extent is never
    negative and offset + extent is the larger of the two. *)
Theorem overlay_spans_between_start_and_end (boundary : Boundary Q) :
  (0 <= GridEditorView.overlayExtent boundary)%Q /\
  (GridEditorView.overlayOffset boundary == Qmin (start boundary) (end_ boundary))%Q /\
  (GridEditorView.overlayOffset boundary + GridEditorView.overlayExtent boundary
   == Qmax (start boundary) (end_ boundary))%Q.
Proof.
  destruct boundary as [s e].
  unfold GridEditorView.overlayExtent, GridEditorView.overlayOffset.
  cbn [start end_ Math_min Math_abs num_sub exactQ exactQ_abs].
  split; [apply Qabs_nonneg|]. split; [reflexivity|].
  destruct (Q.min_spec s e) as [[Hlt ->] | [Hle ->]];
    destruct (Q.max_spec s e) as [[Hlt' ->] | [Hle' ->]];
    apply (Qabs_case (e - s)); intros Habs; lra.
Qed.

Section Badge.
Context {num : Type} {N : JSNumber num}.

Lemma len_generateBoundaries (count : Z) :
  (0 <= count + 1)%Z -> len (generateBoundaries count) = (count + 1)%Z.
Proof.
  intros Hcount. rewrite generateBoundaries_map. unfold len.
  rewrite length_map, zseq_length. lia.
Qed.

(** X8.  The badge of the editor is computed from the horizontal
    boundaries alone: on the grid lines [initializeGridLines] makes for
    [rows] x [cols] it reads "[rows]x[rows] Master Mode", whatever
    [cols] is - the number of columns is never shown. *)
Theorem badge_shows_rows_twice (s : AppState num) (rows cols : Z) :
  (1 <= rows)%Z ->
  GridEditorView.badge (gridLines (initializeGridLines s rows cols))
  = (SlicePreview.string_of_Z rows ++ "x" ++ SlicePreview.string_of_Z rows
     ++ " Master Mode")%string.
Proof.
  intros Hrows. unfold GridEditorView.badge, initializeGridLines.
  cbn [setGridLines gridLines horizontal].
  rewrite len_generateBoundaries by lia. now rewrite Z.add_simpl_r.
Qed.

End Badge.

(* ================================================================== *)
(** * The slicing operation: order and position of the tiles *)

Lemma at_index_middle {A} (pre post : list A) (x : A) :
  at_index (pre ++ x :: post) (len pre) = Some x.
Proof.
  replace (pre ++ x :: post) with (push pre x ++ post)
    by (unfold push; now rewrite <- app_assoc).
  unfold at_index, len.
  destruct (Z.of_nat (List.length pre) <? 0)%Z eqn:E;
    [apply Z.ltb_lt in E; lia|].
  rewrite Nat2Z.id, nth_error_app1
    by (unfold push; rewrite length_app; cbn; lia).
  unfold push. rewrite nth_error_app2 by lia. now rewrite Nat.sub_diag.
Qed.

(** A row of the scan: where a cell stands in it. *)
Lemma row_prefix_length (r0 : Z) (n : nat) (pre post : list (Z * Z)) (r c : Z) :
  map (fun c => (r0, c)) (zseq n 0) = pre ++ (r, c) :: post ->
  r = r0 /\ c = len pre /\ (len pre < Z.of_nat n)%Z.
Proof.
  intros Hrow.
  assert (Hlen : (len pre < Z.of_nat n)%Z).
  { apply (f_equal (@List.length _)) in Hrow.
    rewrite length_map, zseq_length, length_app in Hrow. cbn in Hrow.
    unfold len. lia. }
  pose proof (at_index_middle pre post (r, c)) as Hat.
  rewrite <- Hrow, at_index_map_zseq in Hat by (unfold len in *; lia).
  injection Hat as Hr Hc. repeat split; congruence.
Qed.

(** The scan: a cell stands at position [row * numCols + col]. *)
Lemma scan_prefix_length (m : nat) (n : nat) :
  forall (r0 : Z) (pre post : list (Z * Z)) (r c : Z),
    flat_map (fun r => map (fun c => (r, c)) (zseq m 0)) (zseq n r0)
      = pre ++ (r, c) :: post ->
    len pre = ((r - r0) * Z.of_nat m + c)%Z /\ (0 <= c < Z.of_nat m)%Z
    /\ (r0 <= r)%Z.
Proof.
  induction n as [|n IH]; intros r0 pre post r c Hscan.
  - destruct pre; discriminate.
  - cbn [zseq flat_map] in Hscan.
    apply app_eq_app in Hscan as [l [[Hrow Hrest]|[Hpre Hrest]]].
    + destruct l as [|x l].
      * (* the cell opens the next row *)
        rewrite app_nil_r in Hrow. cbn in Hrest. symmetry in Hrest.
        apply (IH (r0 + 1)%Z [] post) in Hrest as (Hlen & Hc & Hr).
        subst pre. unfold len in *. rewrite length_map, zseq_length.
        cbn in Hlen. nia.
      * (* the cell is in this row *)
        injection Hrest as <- Hpost.
        apply row_prefix_length in Hrow as (-> & -> & Hlt).
        unfold len in *. lia.
    + apply IH in Hrest as (Hlen & Hc & Hr). subst pre.
      unfold len in *. rewrite length_app, length_map, zseq_length. nia.
Qed.

Lemma cells_prefix_length (numRows numCols : Z) (pre post : list (Z * Z))
      (r c : Z) :
  cells numRows numCols = pre ++ (r, c) :: post ->
  len pre = (r * numCols + c)%Z.
Proof.
  unfold cells. intros Hscan.
  apply scan_prefix_length in Hscan as (Hlen & Hc & Hr). lia.
Qed.

Lemma filter_length_le {A} (f : A -> bool) (l : list A) :
  (len (filter f l) <= len l)%Z.
Proof. unfold len. pose proof (filter_length_le f l). lia. Qed.

Lemma filter_all {A} (f : A -> bool) (l : list A) :
  (forall a, In a l -> f a = true) -> filter f l = l.
Proof.
  induction l as [|a l IH]; cbn; [reflexivity|]. intros Hall.
  rewrite (Hall a) by now left. f_equal. apply IH. intros b Hb.
  apply Hall. now right.
Qed.

(** The indices of the tiles increase along the result. *)
Lemma collect_increasing (outcome : Z * Z -> option (option string))
      (scan : list (Z * Z)) :
  forall index0 : Z,
    Forall (fun t => index0 <= index t)%Z (collect outcome scan index0) /\
    StronglySorted (fun a b => index a < index b)%Z (collect outcome scan index0).
Proof.
  induction scan as [|cell rest IH]; intros index0; cbn.
  - split; constructor.
  - destruct (outcome cell) as [[url|]|].
    + destruct (IH (index0 + 1)%Z) as [Hlow Hsorted]. split.
      * constructor; [cbn; lia|].
        eapply Forall_impl; [|exact Hlow]. cbn. intros; lia.
      * constructor; [exact Hsorted|].
        eapply Forall_impl; [|exact Hlow]. cbn. intros; lia.
    + destruct (IH (index0 + 1)%Z) as [Hlow Hsorted]. split; [|exact Hsorted].
      eapply Forall_impl; [|exact Hlow]. cbn. intros; lia.
    + apply IH.
Qed.

(** When no encode fails, the tiles are numbered as they stand. *)
Lemma collect_numbered (outcome : Z * Z -> option (option string))
      (scan : list (Z * Z)) :
  (forall cell, In cell scan -> outcome cell <> Some None) ->
  forall index0 : Z,
    map index (collect outcome scan index0)
    = zseq (List.length (collect outcome scan index0)) index0.
Proof.
  induction scan as [|cell rest IH]; intros Hok index0; cbn; [reflexivity|].
  assert (Hrest : forall c, In c rest -> outcome c <> Some None)
    by (intros c Hc; apply Hok; now right).
  destruct (outcome cell) as [[url|]|] eqn:E.
  - cbn. f_equal. now apply IH.
  - exfalso. apply (Hok cell); [now left | exact E].
  - now apply IH.
Qed.

Lemma sorted_by_position {A} (key : A -> Z) (l : list A) :
  forall k0 : Z,
    (forall pre x post, l = pre ++ x :: post -> key x = (k0 + len pre)%Z) ->
    StronglySorted (fun a b => key a < key b)%Z l.
Proof.
  induction l as [|a l IH]; intros k0 Hkey; constructor.
  - apply (IH (k0 + 1)%Z). intros pre x post ->.
    rewrite (Hkey (a :: pre) x post eq_refl). unfold len. cbn [List.length]. lia.
  - apply Forall_forall. intros b Hb.
    apply in_split in Hb as (pre & post & ->).
    rewrite (Hkey [] a _ eq_refl), (Hkey (a :: pre) b post eq_refl).
    unfold len. cbn [List.length]. lia.
Qed.

Lemma cells_in_row_major_order (numRows numCols : Z) :
  StronglySorted
    (fun a b => fst a * numCols + snd a < fst b * numCols + snd b)%Z
    (cells numRows numCols).
Proof.
  apply (sorted_by_position (fun cell => fst cell * numCols + snd cell)%Z _ 0).
  intros pre [r c] post Hscan. apply cells_prefix_length in Hscan.
  cbn [fst snd]. lia.
Qed.

(** The tiles stand in the order of their cells in the scan. *)
Lemma collect_in_scan_order (outcome : Z * Z -> option (option string))
      (R : Z * Z -> Z * Z -> Prop) (scan : list (Z * Z)) :
  StronglySorted R scan ->
  forall index0 : Z,
    StronglySorted (fun a b => R (row a, col a) (row b, col b))
                   (collect outcome scan index0).
Proof.
  induction 1 as [|cell rest Hrest IH Hcell]; intros index0; cbn;
    [constructor|].
  destruct (outcome cell) as [[url|]|]; try apply IH.
  constructor; [apply IH|]. apply Forall_forall. intros t Ht.
  apply collect_sound in Ht as (pre & post & Hscan & _).
  cbn [row col]. destruct cell as [r c]. cbn [fst snd].
  rewrite Forall_forall in Hcell. apply Hcell. rewrite Hscan.
  apply in_or_app. right. now left.
Qed.

Section TileOrder.
Context {num : Type} {N : JSNumber num}.

(** X9.  The tiles [handleSlice] stores stand in row-major order of
    their cells, every cell inside the grid, and their indices increase
    strictly along the list (so they are distinct, as the React keys of
    the preview need); a tile's index is never negative and never more
    than its cell's scan position row * numCols + col. *)
Theorem tiles_are_ordered (env : Browser num) (s : AppState num)
        (img : HTMLImageElement num) :
  image s = Some img -> getContext2d env = true ->
  let tiles := slicesAfter (handleSlice env s) in
  let numRows := (len (horizontal (gridLines s)) - 1)%Z in
  let numCols := (len (vertical (gridLines s)) - 1)%Z in
  StronglySorted
    (fun a b => row a * numCols + col a < row b * numCols + col b)%Z tiles /\
  StronglySorted (fun a b => index a < index b)%Z tiles /\
  Forall (fun t => (0 <= row t < numRows)%Z /\ (0 <= col t < numCols)%Z /\
                   (0 <= index t <= row t * numCols + col t)%Z) tiles.
Proof.
  intros Himg Hctx. cbv zeta. rewrite (handleSlice_slices env s img Himg Hctx).
  split; [|split].
  - apply (collect_in_scan_order _
             (fun a b => fst a * _ + snd a < fst b * _ + snd b)%Z).
    apply cells_in_row_major_order.
  - apply collect_increasing.
  - apply Forall_forall. intros t Ht.
    apply collect_sound in Ht as (pre & post & Hscan & _ & Hindex).
    assert (Hin : In (row t, col t)
                     (cells (len (horizontal (gridLines s)) - 1)
                            (len (vertical (gridLines s)) - 1)))
      by (rewrite Hscan; apply in_or_app; right; now left).
    apply in_cells in Hin. apply cells_prefix_length in Hscan.
    pose proof (filter_length_le
                  (attempted (attempt env img (gridLines s) (quality s)
                                      (optimizeResolution s) (outputFormat s)))
                  pre) as Hle.
    unfold len in *. lia.
Qed.

(** X10.  When no cell of the grid is skipped - every crop has positive
    width and height - each tile's index is its cell's scan position,
    index = row * numCols + col, whether or not other encodes failed. *)
Theorem index_is_scan_position_when_nothing_is_skipped
        (env : Browser num) (s : AppState num) (img : HTMLImageElement num) :
  image s = Some img -> getContext2d env = true ->
  (forall cell,
      In cell (cells (len (horizontal (gridLines s)) - 1)
                     (len (vertical (gridLines s)) - 1)) ->
      encoded img (gridLines s) cell = true) ->
  forall t, In t (slicesAfter (handleSlice env s)) ->
    index t = (row t * (len (vertical (gridLines s)) - 1) + col t)%Z.
Proof.
  intros Himg Hctx Hall t Ht.
  rewrite (handleSlice_slices env s img Himg Hctx) in Ht.
  apply collect_sound in Ht as (pre & post & Hscan & _ & Hindex).
  rewrite filter_attempted_encoded in Hindex.
  rewrite filter_all in Hindex.
  - apply cells_prefix_length in Hscan. lia.
  - intros cell Hcell. apply Hall. rewrite Hscan. apply in_or_app. now left.
Qed.

(** X11.  With PNG as the output format the quality setting has no
    effect: whatever two values it has, slicing the same image on the
    same grid lines gives the same tiles (the encoder is handed
    [undefined] for the quality). *)
Theorem png_ignores_quality (env : Browser num) (s : AppState num) (q : num) :
  outputFormat s = png ->
  slicesAfter (handleSlice env (setQuality s q))
  = slicesAfter (handleSlice env s).
Proof.
  intros Hpng.
  destruct (image s) as [img|] eqn:Himg; [destruct (getContext2d env) eqn:Hctx|].
  - rewrite (handleSlice_slices env (setQuality s q) img Himg Hctx),
            (handleSlice_slices env s img Himg Hctx).
    cbn [setQuality gridLines quality optimizeResolution outputFormat].
    rewrite Hpng. reflexivity.
  - unfold handleSlice. cbn [setQuality image]. rewrite Himg, Hctx. reflexivity.
  - unfold handleSlice. cbn [setQuality image]. rewrite Himg. reflexivity.
Qed.

End TileOrder.

(* ================================================================== *)
(** * From slicing to export *)

Lemma zseq_shift (n : nat) (i : Z) :
  map (fun k => k + 1)%Z (zseq n i) = zseq n (i + 1).
Proof.
  revert i; induction n as [|n IH]; intros i; cbn; [reflexivity|].
  now rewrite IH.
Qed.

Section SlicingToExport.
Context {num : Type} {N : JSNumber num}.

Lemma renderSlicePreview_slices (s : AppState num) (props : SlicePreview.Props) :
  renderSlicePreview s = Some props ->
  SlicePreview.slices props = slices s /\
  SlicePreview.gridCols props = (len (vertical (gridLines s)) - 1)%Z /\
  SlicePreview.format props = outputFormat s.
Proof.
  unfold renderSlicePreview. destruct (slices s); [discriminate|].
  intros [= <-]. cbn. auto.
Qed.

(** X12.  When no encode fails, the archive and the per-tile buttons
    agree: slicing, rendering the preview and building the archive
    names every entry exactly as the download button of the same tile
    names its file. *)
Theorem archive_names_agree_with_tile_names
        (env : Browser num) (s : AppState num) (img : HTMLImageElement num)
        (props : SlicePreview.Props) (archive : SlicePreview.Archive) :
  image s = Some img -> getContext2d env = true ->
  (forall r c crop,
      cellCrop (gridLines s) (naturalWidth img) (naturalHeight img) r c
        = Some crop ->
      zeroArea crop = false ->
      encodeTile env img (quality s) (optimizeResolution s) (outputFormat s)
                 crop <> None) ->
  renderSlicePreview (sliceClick env s) = Some props ->
  SlicePreview.downloadAll false props = Some archive ->
  map SlicePreview.name (SlicePreview.entries archive)
  = map (fun tile => SlicePreview.link_download (SlicePreview.tileDownload tile))
        (SlicePreview.slices props).
Proof.
  intros Himg Hctx Hencode Hprops Harchive.
  rewrite (downloadAll_entry_names props archive Harchive).
  apply renderSlicePreview_slices in Hprops as (-> & _).
  assert (Hslices : slices (sliceClick env s) = slicesAfter (handleSlice env s)).
  { unfold sliceClick, slicesAfter.
    destruct (handleSlice_returns env s) as [s' ->]. reflexivity. }
  rewrite Hslices, (handleSlice_slices env s img Himg Hctx).
  set (outcome := attempt env img (gridLines s) (quality s)
                          (optimizeResolution s) (outputFormat s)).
  set (scan := cells _ _).
  assert (Hnumbered : map index (collect outcome scan 0)
                      = zseq (List.length (collect outcome scan 0)) 0).
  { apply collect_numbered. intros [r c] _ Hfail.
    unfold outcome, attempt in Hfail. cbn [fst snd] in Hfail.
    destruct (cellCrop _ _ _ r c) as [crop|] eqn:Hcrop; [|discriminate].
    destruct (zeroArea crop) eqn:Harea; [discriminate|].
    injection Hfail as Hfail. now apply (Hencode r c crop). }
  change (fun tile => SlicePreview.link_download (SlicePreview.tileDownload tile))
    with (fun tile => sliceName (index tile + 1)).
  rewrite <- (map_map index (fun i => sliceName (i + 1))), Hnumbered.
  rewrite <- (map_map (fun k => k + 1)%Z sliceName), zseq_shift.
  reflexivity.
Qed.

(** X13.  What [handleSlice] does to the state.  Without an image it
    does nothing.  With an image but no 2D context it returns after
    raising [isSlicing] and never lowers it again, everything else as it
    was - the Generate button stays disabled.  Otherwise it ends with
    [isSlicing] and [settingsDirty] lowered, and has touched neither the
    image, the grid lines, the grid configuration nor the settings. *)
Theorem handleSlice_state_changes (env : Browser num) (s : AppState num) :
  (image s = None -> handleSlice env s = Ok s) /\
  (image s <> None -> getContext2d env = false ->
   handleSlice env s = Ok (setIsSlicing s true)) /\
  (image s <> None -> getContext2d env = true ->
   exists s',
     handleSlice env s = Ok s' /\
     isSlicing s' = false /\ settingsDirty s' = false /\
     sliceInputs s' = sliceInputs s /\ gridConfig s' = gridConfig s /\
     showSafariWarning s' = showSafariWarning s).
Proof.
  unfold handleSlice. split; [|split].
  - now intros ->.
  - intros Himg ->. destruct (image s); [reflexivity | contradiction].
  - intros Himg ->. destruct (image s) as [img|] eqn:E; [|contradiction].
    cbn [negb]. rewrite sliceImage_collect. cbn [bind].
    eexists. split; [reflexivity|]. unfold sliceInputs. cbn. now rewrite E.
Qed.

End SlicingToExport.

(* ================================================================== *)
(** * Exact arithmetic: geometry of the crop and of the default grid *)

Module ExactGeometry.
Local Open Scope Q_scope.

Lemma times_quotient (m x : Q) : 0 < x -> x * (m / x) == m.
Proof. intros Hx. field. intros E. rewrite E in Hx. discriminate. Qed.

(** X14.  In exact arithmetic, when the cap forces scaling the longer
    side of the target is exactly maxDim - the tile is as large as the
    cap allows - and both sides are strictly smaller than the crop's:
    the cap only ever scales down. *)
Theorem targetSize_scales_down_to_the_cap
        (optimizeResolution : bool) (width height : Q) :
  0 < width -> 0 < height ->
  let maxDim := maxDim (N := exactQ) optimizeResolution in
  let target := targetSize (N := exactQ) optimizeResolution width height in
  (maxDim < width \/ maxDim < height) ->
  Qmax (fst target) (snd target) == maxDim /\
  fst target < width /\ snd target < height.
Proof.
  intros Hw Hh. cbv zeta. intros Hbig.
  pose proof (ExactFacts.maxDim_pos optimizeResolution) as Hm.
  unfold targetSize. cbn [num_lt num_mul num_div Math_min exactQ].
  set (m := maxDim optimizeResolution) in *.
  assert (Hscaled : negb (Qle_bool width m) || negb (Qle_bool height m) = true).
  { destruct Hbig as [H|H]; apply Qlt_not_le in H.
    - destruct (Qle_bool width m) eqn:E; [apply Qle_bool_iff in E; contradiction|].
      reflexivity.
    - destruct (Qle_bool height m) eqn:E; [apply Qle_bool_iff in E; contradiction|].
      now rewrite orb_true_r. }
  rewrite Hscaled. cbn [fst snd].
  pose proof (times_quotient m width Hw) as Ew.
  pose proof (times_quotient m height Hh) as Eh.
  pose proof (ExactFacts.quotient_pos m width Hm Hw) as Pw.
  pose proof (ExactFacts.quotient_pos m height Hm Hh) as Ph.
  revert Ew Eh Pw Ph. generalize (m / width) (m / height). intros a b Ew Eh Pa Pb.
  destruct (Q.min_spec a b) as [[Hlt Hmin] | [Hle Hmin]]; rewrite Hmin.
  - (* the width is the longer side *)
    assert (Hside : height * a <= width * a) by nra.
    rewrite (Q.max_l _ _ Hside). split; [exact Ew|]. split; nra.
  - (* the height is the longer side *)
    assert (Hside : width * b <= height * b) by nra.
    rewrite (Q.max_r _ _ Hside). split; [exact Eh|]. split; nra.
Qed.

(** A percentage of a length lies within the length. *)
Lemma percent_within (p d : Q) :
  0 <= p <= 100 -> 0 <= d -> 0 <= (p / 100) * d <= d.
Proof.
  intros Hp Hd.
  assert (E : p / 100 == p * (1 # 100)) by (field; discriminate).
  rewrite E. split; nra.
Qed.

(** X15.  In exact arithmetic, when every boundary lies in [0,100] - as
    the default boundaries do and as the drag handler's clamp keeps
    them - the crop rectangle of every cell lies inside the image: its
    origin is not negative, its width and height are not negative, and
    it ends no later than the image does.  An inverted band gives width
    (or height) 0. *)
Theorem crop_lies_inside_image
        (gl : GridLines Q) (imageWidth imageHeight : Q) (r c : Z)
        (crop : CropRect Q) :
  (forall b, In b (horizontal gl ++ vertical gl) ->
             0 <= start b <= 100 /\ 0 <= end_ b <= 100) ->
  0 <= imageWidth -> 0 <= imageHeight ->
  cellCrop gl imageWidth imageHeight r c = Some crop ->
  0 <= xStartOrig crop /\ 0 <= yStartOrig crop /\
  0 <= sliceW crop /\ 0 <= sliceH crop /\
  xStartOrig crop + sliceW crop <= imageWidth /\
  yStartOrig crop + sliceH crop <= imageHeight.
Proof.
  intros Hrange HW HH. unfold cellCrop, band.
  destruct (at_index (horizontal gl) r) as [top|] eqn:Et; [|discriminate].
  destruct (at_index (horizontal gl) (r + 1)) as [bottom|] eqn:Eb; [|discriminate].
  destruct (at_index (vertical gl) c) as [left|] eqn:El; [|discriminate].
  destruct (at_index (vertical gl) (c + 1)) as [right|] eqn:Er; [|discriminate].
  intros [= <-]. cbn [xStartOrig yStartOrig sliceW sliceH].
  cbn [lit num_div num_mul num_sub Math_max exactQ].
  assert (Hin : forall (axis : list (Boundary Q)) i b,
             at_index axis i = Some b -> In b axis).
  { intros axis i b. unfold at_index. destruct (i <? 0)%Z; [discriminate|].
    apply nth_error_In. }
  assert (Ht := Hrange top (in_or_app _ _ _ (or_introl (Hin _ _ _ Et)))).
  assert (Hb := Hrange bottom (in_or_app _ _ _ (or_introl (Hin _ _ _ Eb)))).
  assert (Hl := Hrange left (in_or_app _ _ _ (or_intror (Hin _ _ _ El)))).
  assert (Hr := Hrange right (in_or_app _ _ _ (or_intror (Hin _ _ _ Er)))).
  pose proof (percent_within (end_ top) imageHeight (proj2 Ht) HH).
  pose proof (percent_within (start bottom) imageHeight (proj1 Hb) HH).
  pose proof (percent_within (end_ left) imageWidth (proj2 Hl) HW).
  pose proof (percent_within (start right) imageWidth (proj1 Hr) HW).
  generalize dependent (end_ top / 100 * imageHeight).
  generalize dependent (start bottom / 100 * imageHeight).
  generalize dependent (end_ left / 100 * imageWidth).
  generalize dependent (start right / 100 * imageWidth).
  intros x1 Hx1 x0 Hx0 y1 Hy1 y0 Hy0.
  destruct (Q.max_spec 0 (x1 - x0)) as [[? Ex] | [? Ex]];
    destruct (Q.max_spec 0 (y1 - y0)) as [[? Ey] | [? Ey]];
    rewrite Ex, Ey; repeat split; lra.
Qed.

End ExactGeometry.

Module DefaultGrid.
Local Open Scope Q_scope.

(** The step between boundaries, for a count the default layout has
    room for. *)
Lemma step_facts (count : Z) :
  (1 <= count < 40)%Z ->
  inject_Z count * (100 / inject_Z count) == 100 /\
  5 # 2 < 100 / inject_Z count /\
  1 <= inject_Z count.
Proof.
  intros Hcount.
  assert (H1 : inject_Z 1 <= inject_Z count) by (rewrite <- Zle_Qle; lia).
  assert (H39 : inject_Z count <= inject_Z 39) by (rewrite <- Zle_Qle; lia).
  change (inject_Z 1) with 1 in H1. change (inject_Z 39) with 39 in H39.
  assert (Hpos : 0 < inject_Z count) by lra.
  pose proof (ExactGeometry.times_quotient 100 (inject_Z count) Hpos) as Hstep.
  pose proof (ExactFacts.quotient_pos 100 (inject_Z count) eq_refl Hpos) as Hsp.
  split; [exact Hstep|]. split; [|exact H1].
  revert Hstep Hsp. generalize (100 / inject_Z count). intros step Hstep Hsp. nra.
Qed.

Lemma interior_position (count i : Z) :
  (1 <= count < 40)%Z -> (0 < i < count)%Z ->
  let position := inject_Z i * (100 / inject_Z count) in
  100 / inject_Z count <= position /\
  position <= 100 - 100 / inject_Z count.
Proof.
  intros Hcount Hi. cbv zeta.
  destruct (step_facts count Hcount) as (Hstep & Hwide & H1).
  assert (Hlo : inject_Z 1 <= inject_Z i) by (rewrite <- Zle_Qle; lia).
  assert (Hhi : inject_Z (i + 1) <= inject_Z count) by (rewrite <- Zle_Qle; lia).
  rewrite inject_Z_plus in Hhi. change (inject_Z 1) with 1 in Hlo, Hhi.
  revert Hstep Hwide. generalize (100 / inject_Z count). intros step Hstep Hwide.
  split; nra.
Qed.

Lemma next_position (count i : Z) :
  inject_Z (i + 1) * (100 / inject_Z count)
  == inject_Z i * (100 / inject_Z count) + 100 / inject_Z count.
Proof. rewrite inject_Z_plus. ring. Qed.

(** Boundary [i] of the default layout, case by case. *)
Lemma default_boundary_shape (count i : Z) :
  (1 <= count < 40)%Z -> (0 <= i <= count)%Z ->
  let b := defaultBoundary (N := exactQ) count i in
  0 <= start b /\ start b < end_ b /\ end_ b <= 100 /\
  (i = 0%Z -> end_ b == 3 # 2) /\
  (i = count -> start b == 197 # 2) /\
  ((0 < i < count)%Z ->
   start b == inject_Z i * (100 / inject_Z count) - 1 /\
   end_ b == inject_Z i * (100 / inject_Z count) + 1).
Proof.
  intros Hcount Hi. cbv zeta. unfold defaultBoundary.
  destruct (step_facts count Hcount) as (Hstep & Hwide & H1).
  destruct (i =? 0)%Z eqn:E0; [apply Z.eqb_eq in E0 | apply Z.eqb_neq in E0].
  - cbn. repeat split; try reflexivity; try discriminate; intros; lia.
  - destruct (i =? count)%Z eqn:Ec;
      [apply Z.eqb_eq in Ec | apply Z.eqb_neq in Ec].
    + cbn. repeat split; try reflexivity; try discriminate; intros; lia.
    + cbn [start end_ lit of_int num_add num_sub num_mul num_div exactQ].
      destruct (interior_position count i Hcount) as [Hlo Hhi]; [lia|].
      revert Hlo Hhi.
      generalize (inject_Z i * (100 / inject_Z count)). intros position Hlo Hhi.
      repeat split; try lra; intros; try lia; reflexivity.
Qed.

(** The band after boundary [i] of the default layout is not empty. *)
Lemma default_band_width (count i : Z) :
  (1 <= count < 40)%Z -> (0 <= i < count)%Z ->
  end_ (defaultBoundary (N := exactQ) count i)
  < start (defaultBoundary (N := exactQ) count (i + 1)).
Proof.
  intros Hcount Hi.
  destruct (step_facts count Hcount) as (Hstep & Hwide & H1).
  destruct (default_boundary_shape count i Hcount) as (_ & _ & _ & Ha0 & _ & Ha);
    [lia|].
  destruct (default_boundary_shape count (i + 1) Hcount)
    as (_ & _ & _ & _ & Hbc & Hb); [lia|].
  destruct (Z.eq_dec i 0) as [Hi0|Hi0];
    destruct (Z.eq_dec (i + 1) count) as [Hic|Hic].
  - rewrite (Ha0 Hi0), (Hbc Hic). reflexivity.
  - rewrite (Ha0 Hi0). destruct Hb as [-> _]; [lia|].
    rewrite next_position. subst i. change (inject_Z 0) with 0.
    clear - Hwide. revert Hwide. generalize (100 / inject_Z count).
    intros step Hwide. lra.
  - rewrite (Hbc Hic). destruct Ha as [_ ->]; [lia|].
    destruct (interior_position count i Hcount) as [_ Hhi]; [lia|].
    clear - Hwide Hhi. revert Hwide Hhi.
    generalize (100 / inject_Z count). intros step.
    generalize (inject_Z i * step). intros position Hwide Hhi. lra.
  - destruct Ha as [_ ->]; [lia|]. destruct Hb as [-> _]; [lia|].
    rewrite next_position.
    clear - Hwide. revert Hwide. generalize (100 / inject_Z count).
    intros step. generalize (inject_Z i * step). intros position Hwide. lra.
Qed.

Lemma default_boundary_at (count i : Z) (b : Boundary Q) :
  (1 <= count)%Z ->
  at_index (generateBoundaries (N := exactQ) count) i = Some b ->
  (0 <= i <= count)%Z /\ b = defaultBoundary count i.
Proof.
  intros Hcount Hb. pose proof (at_index_in_range _ _ _ Hb) as Hi.
  rewrite len_generateBoundaries in Hi by lia.
  rewrite generateBoundaries_at in Hb by lia. split; [lia | congruence].
Qed.

(** X16.  In exact arithmetic, for every count from 1 to 39 the default
    boundaries are well formed: each lies in [0,100] with start before
    end, and each band between two neighbours - the end of one to the
    start of the next - has positive width.  (From count 40 on the step
    100/count is no wider than the fixed margins and gutters: the first
    band is empty or inverted.) *)
Theorem default_boundaries_leave_positive_bands (count : Z) :
  (1 <= count < 40)%Z ->
  (forall i b,
      at_index (generateBoundaries (N := exactQ) count) i = Some b ->
      0 <= start b /\ start b < end_ b /\ end_ b <= 100) /\
  (forall i lo hi,
      band (generateBoundaries (N := exactQ) count) i = Some (lo, hi) ->
      lo < hi).
Proof.
  intros Hcount. split.
  - intros i b Hb. apply default_boundary_at in Hb as [Hi ->]; [|lia].
    destruct (default_boundary_shape count i Hcount Hi) as (H0 & Hlt & H100 & _).
    auto.
  - intros i lo hi. unfold band.
    destruct (at_index _ i) as [a|] eqn:Ea; [|discriminate].
    destruct (at_index _ (i + 1)) as [b|] eqn:Eb; [|discriminate].
    intros [= <- <-].
    apply default_boundary_at in Ea as [Hi ->]; [|lia].
    apply default_boundary_at in Eb as [Hi' ->]; [|lia].
    apply default_band_width; [exact Hcount | lia].
Qed.

Lemma band_has_extent (lo hi extent : Q) :
  lo < hi -> 0 < extent ->
  Qle_bool (Qmax 0 ((hi / 100) * extent - (lo / 100) * extent)) 0 = false.
Proof.
  intros Hband Hextent.
  destruct (Qle_bool _ 0) eqn:E; [|reflexivity]. exfalso.
  apply Qle_bool_iff in E.
  pose proof (Q.le_max_r 0 ((hi / 100) * extent - (lo / 100) * extent)) as Hmax.
  assert (Hpos : 0 < (hi - lo) * extent) by (apply Qmult_lt_0_compat; lra).
  assert (Hle : (hi / 100) * extent - (lo / 100) * extent <= 0)
    by (eapply Qle_trans; eassumption).
  assert (Heq : (hi / 100) * extent - (lo / 100) * extent
                == (hi - lo) * extent * (1 # 100)) by field.
  rewrite Heq in Hle. clear - Hpos Hle. revert Hpos Hle.
  generalize ((hi - lo) * extent). intros area Hpos Hle. lra.
Qed.

Lemma default_band (count i : Z) :
  (1 <= count < 40)%Z -> (0 <= i < count)%Z ->
  exists lo hi,
    band (generateBoundaries (N := exactQ) count) i = Some (lo, hi) /\ lo < hi.
Proof.
  intros Hcount Hi. unfold band.
  rewrite !generateBoundaries_at by lia.
  eexists _, _. split; [reflexivity|].
  now apply default_band_width.
Qed.

(** Every cell of a default grid has a crop of positive width and
    height, on an image that has a width and a height. *)
Lemma default_grid_cells_encoded (img : HTMLImageElement Q) (rows cols : Z)
      (cell : Z * Z) :
  (1 <= rows < 40)%Z -> (1 <= cols < 40)%Z ->
  0 < naturalWidth img -> 0 < naturalHeight img ->
  In cell (cells rows cols) ->
  encoded img {| horizontal := generateBoundaries rows;
                 vertical := generateBoundaries cols |} cell = true.
Proof.
  intros Hrows Hcols Hw Hh Hcell. destruct cell as [r c].
  apply in_cells in Hcell as [Hr Hc].
  destruct (default_band rows r Hrows Hr) as (ylo & yhi & Hy & Hylt).
  destruct (default_band cols c Hcols Hc) as (xlo & xhi & Hx & Hxlt).
  unfold encoded, cellCrop. cbn [fst snd horizontal vertical].
  rewrite Hy, Hx. unfold zeroArea.
  cbn [sliceW sliceH lit num_le num_sub num_mul num_div Math_max exactQ].
  rewrite (band_has_extent xlo xhi _ Hxlt Hw), (band_has_extent ylo yhi _ Hylt Hh).
  reflexivity.
Qed.

Lemma collect_every_cell (outcome : Z * Z -> option (option string))
      (scan : list (Z * Z)) :
  (forall cell, In cell scan -> exists url, outcome cell = Some (Some url)) ->
  forall index0,
    map (fun t => (row t, col t)) (collect outcome scan index0) = scan.
Proof.
  induction scan as [|cell rest IH]; intros Hall index0; [reflexivity|].
  cbn [collect]. destruct (Hall cell (or_introl eq_refl)) as [url ->].
  cbn [map row col]. rewrite IH by (intros c Hc; apply Hall; now right).
  now destruct cell.
Qed.

(** X17.  Slicing a loaded image of positive width and height on the
    default grid lines of a rows x cols grid (each from 1 to 39), in
    exact arithmetic: no cell is skipped, so every tile's index is
    row * cols + col; and when the encoder always gives a blob, the
    tiles are the cells of the grid, one each, in row-major order. *)
Theorem default_grid_is_sliced_cell_by_cell
        (env : Browser Q) (s0 : AppState Q) (img : HTMLImageElement Q)
        (rows cols : Z) :
  image s0 = Some img -> getContext2d env = true ->
  (1 <= rows < 40)%Z -> (1 <= cols < 40)%Z ->
  0 < naturalWidth img -> 0 < naturalHeight img ->
  let tiles := slicesAfter (handleSlice env (initializeGridLines s0 rows cols)) in
  (forall t, In t tiles -> index t = (row t * cols + col t)%Z) /\
  ((forall canvas type quality, toBlob env canvas type quality <> None) ->
   map (fun t => (row t, col t)) tiles = cells rows cols).
Proof.
  intros Himg Hctx Hrows Hcols Hw Hh. cbv zeta.
  assert (Himg' : image (initializeGridLines s0 rows cols) = Some img)
    by exact Himg.
  rewrite (handleSlice_slices env _ img Himg' Hctx).
  cbn [initializeGridLines setGridLines gridLines horizontal vertical
       quality optimizeResolution outputFormat].
  rewrite !len_generateBoundaries by lia.
  replace (rows + 1 - 1)%Z with rows by lia.
  replace (cols + 1 - 1)%Z with cols by lia.
  split.
  - intros t Ht.
    apply collect_sound in Ht as (pre & post & Hscan & _ & Hindex).
    rewrite filter_attempted_encoded in Hindex.
    rewrite filter_all in Hindex.
    + apply cells_prefix_length in Hscan. lia.
    + intros cell Hcell.
      apply (default_grid_cells_encoded img rows cols cell Hrows Hcols Hw Hh).
      rewrite Hscan. apply in_or_app. now left.
  - intros Htotal. apply collect_every_cell. intros cell Hcell.
    pose proof (default_grid_cells_encoded img rows cols cell
                  Hrows Hcols Hw Hh Hcell) as Henc.
    unfold encoded in Henc. unfold attempt.
    destruct (cellCrop _ _ _ _ _) as [crop|]; [|discriminate].
    destruct (zeroArea crop); [discriminate|].
    unfold encodeTile.
    destruct (toBlob env _ _ _) as [blob|] eqn:Eblob.
    + eexists. reflexivity.
    + now apply Htotal in Eblob.
Qed.

End DefaultGrid.

(* ================================================================== *)
(** * The component over time *)

Section Sessions.
Context {num : Type} {N : JSNumber num} {E : SameValue num}.

Lemma tilesOfAPreset_nil : tilesOfAPreset [].
Proof. split; constructor. Qed.

Lemma preset_sizes (p : Preset) :
  (1 <= rows (presetConfig p) <= 6)%Z /\ (1 <= cols (presetConfig p) <= 6)%Z.
Proof. destruct p; cbn; lia. Qed.

(** The tiles of a scan of at most 6 x 6 cells. *)
Lemma collect_tiles_of_a_preset (outcome : Z * Z -> option (option string))
      (numRows numCols : Z) :
  (numRows <= 6)%Z -> (numCols <= 6)%Z ->
  tilesOfAPreset (collect outcome (cells numRows numCols) 0).
Proof.
  intros Hrows Hcols. split; [apply collect_increasing|].
  apply Forall_forall. intros t Ht.
  apply collect_sound in Ht as (pre & post & Hscan & _ & Hindex).
  assert (Hin : In (row t, col t) (cells numRows numCols))
    by (rewrite Hscan; apply in_or_app; right; now left).
  apply in_cells in Hin. apply cells_prefix_length in Hscan.
  pose proof (filter_length_le (attempted outcome) pre) as Hle.
  unfold len in *. nia.
Qed.

Lemma handleMouseMove_lengths (d : option GridEditor.Dragging)
      (rect : option (GridEditor.DOMRect num)) (gl : GridLines num)
      (e : GridEditor.MouseEvent num) :
  len (horizontal (GridEditor.handleMouseMove d rect gl e)) = len (horizontal gl) /\
  len (vertical (GridEditor.handleMouseMove d rect gl e)) = len (vertical gl).
Proof.
  unfold GridEditor.handleMouseMove.
  destruct d as [d|], rect as [rect|]; try (split; reflexivity).
  cbn [horizontal vertical].
  destruct (GridEditor.type d); rewrite ?len_mapi; split; reflexivity.
Qed.

Ltac five_parts := split; [|split; [|split; [|split]]].

(** After the effect of lines 63-69 has found an image. *)
Lemma fresh_grid_wellFormed (s : AppState num) (p : Preset)
      (flight : option (list SliceResult)) :
  gridConfig s = presetConfig p ->
  (forall tiles, flight = Some tiles -> tilesOfAPreset tiles) ->
  wellFormed
    (mkSession
       (setSettingsDirty
          (setSlices (initializeGridLines s (rows (gridConfig s))
                                          (cols (gridConfig s))) []) false)
       flight).
Proof.
  intros Hp Hflight. unfold wellFormed. cbn. rewrite Hp.
  destruct (preset_sizes p) as [Hr Hc].
  rewrite !len_generateBoundaries by lia.
  five_parts; eauto using tilesOfAPreset_nil; discriminate.
Qed.

Lemma imageEffect_with_image (s : AppState num) (img : HTMLImageElement num) :
  image s = Some img ->
  imageEffect s
  = setSettingsDirty
      (setSlices (initializeGridLines s (rows (gridConfig s))
                                      (cols (gridConfig s))) []) false.
Proof. intros Himg. unfold imageEffect. now rewrite Himg. Qed.

Lemma imageEffect_without_image (s : AppState num) :
  image s = None -> imageEffect s = s.
Proof. intros Himg. unfold imageEffect. now rewrite Himg. Qed.

Lemma settingsEffect_keeps (s : AppState num) :
  image (settingsEffect s) = image s /\
  gridConfig (settingsEffect s) = gridConfig s /\
  gridLines (settingsEffect s) = gridLines s /\
  slices (settingsEffect s) = slices s /\
  (settingsDirty (settingsEffect s) = true ->
   settingsDirty s = true \/ slices s <> []).
Proof.
  unfold settingsEffect.
  destruct (0 <? len (slices s))%Z eqn:Hlen; cbn; repeat split; auto.
  intros _. right. intros Hnil. rewrite Hnil in Hlen. discriminate.
Qed.

(** A change of one of the settings, followed by the effect of lines
    57-61, keeps a session well formed. *)
Lemma setting_wellFormed (session : Session)
      (setter : AppState num -> AppState num) :
  (forall s, image (setter s) = image s /\ gridConfig (setter s) = gridConfig s /\
             gridLines (setter s) = gridLines s /\ slices (setter s) = slices s /\
             settingsDirty (setter s) = settingsDirty s) ->
  wellFormed session ->
  wellFormed (serve (fun s => settingsEffect (setter s)) session).
Proof.
  intros Hsetter (Hconfig & Hlines & Hdirty & Htiles & Hflight).
  destruct (Hsetter (app session)) as (Hi & Hc & Hg & Hs & Hd).
  destruct (settingsEffect_keeps (setter (app session)))
    as (Hi' & Hc' & Hg' & Hs' & Hd').
  unfold serve, wellFormed. cbn [app inFlight].
  rewrite Hi', Hc', Hg', Hs', Hi, Hc, Hg, Hs.
  five_parts; eauto.
  intros Himg Hdirty'. destruct (Hd' Hdirty') as [Hwas|Hsome].
  - rewrite Hd in Hwas. eauto.
  - now rewrite Hs in Hsome.
Qed.

Lemma step_wellFormed (env : Browser num) (ev : Event) (session : Session) :
  wellFormed session -> wellFormed (step env ev session).
Proof.
  intros Hwf. pose proof Hwf as (Hconfig & Hlines & Hdirty & Htiles & Hflight).
  destruct ev as [img| |p|f| |q| |d rect e| |]; cbn [step].
  - (* a new image *)
    destruct Hconfig as [p Hp].
    unfold serve, imageLoaded. cbv zeta.
    rewrite (imageEffect_with_image _ img) by reflexivity.
    apply (fresh_grid_wellFormed _ p); [exact Hp | exact Hflight].
  - (* Reset *)
    unfold serve, resetClick.
    rewrite imageEffect_without_image by reflexivity.
    unfold wellFormed. cbn.
    five_parts; eauto using tilesOfAPreset_nil; contradiction.
  - (* a grid button *)
    unfold serve, presetClick.
    destruct (settingsEffect_keeps (setGridConfig (app session) (presetConfig p)))
      as (Hi' & Hc' & Hg' & Hs' & Hd').
    destruct (image (app session)) as [img|] eqn:Himg.
    + rewrite (imageEffect_with_image _ img) by (rewrite Hi'; exact Himg).
      apply (fresh_grid_wellFormed _ p); [now rewrite Hc' | exact Hflight].
    + rewrite imageEffect_without_image by (rewrite Hi'; exact Himg).
      unfold wellFormed. cbn [app inFlight]. rewrite Hi', Hc', Hs'.
      cbn [setGridConfig image gridConfig slices]. rewrite Himg.
      five_parts; eauto; contradiction.
  - (* a format button *)
    unfold formatClick, serve.
    destruct (Format_eqb f (outputFormat (app session)));
      [destruct session; exact Hwf|].
    apply (setting_wellFormed session (fun s => setOutputFormat s f));
      [intros s; cbn; auto | exact Hwf].
  - (* the checkbox *)
    apply (setting_wellFormed session
             (fun s => setOptimizeResolution s (negb (optimizeResolution s))));
      [intros s; cbn; auto | exact Hwf].
  - (* the slider *)
    unfold qualityChange, serve.
    destruct (Object_is q (quality (app session)));
      [destruct session; exact Hwf|].
    apply (setting_wellFormed session (fun s => setQuality s q));
      [intros s; cbn; auto | exact Hwf].
  - (* the warning *)
    unfold wellFormed, serve, dismissWarning. cbn.
    five_parts; eauto.
  - (* a pointer move *)
    unfold wellFormed, serve, pointerMove. cbn.
    destruct (handleMouseMove_lengths d rect (gridLines (app session)) e)
      as [-> ->].
    five_parts; eauto.
  - (* Generate *)
    unfold sliceStart. cbv zeta.
    destruct (isSlicing (app session)); [exact Hwf|].
    destruct (image (app session)) as [img|] eqn:Himg; [|exact Hwf].
    unfold wellFormed. cbn [app inFlight]. cbn. rewrite Himg.
    assert (Hpresent : Some img <> (None : option (HTMLImageElement num)))
      by discriminate.
    five_parts; [exact Hconfig | intros _; exact (Hlines Hpresent)
                | intros _; exact (Hdirty Hpresent) | exact Htiles |].
    intros tiles H.
    destruct (getContext2d env) eqn:Hctx; cbn [negb] in H; [|discriminate].
    pose proof (handleSlice_slices env (app session) img Himg Hctx) as Hs.
    destruct (handleSlice env (app session)) as [s'|]; [|discriminate].
    injection H as <-. cbn [slicesAfter] in Hs. rewrite Hs.
    destruct Hconfig as [p Hp]. destruct (preset_sizes p) as [Hr Hc].
    destruct (Hlines Hpresent) as [Hh Hv]. rewrite Hp in Hh, Hv.
    apply collect_tiles_of_a_preset; lia.
  - (* the call settles *)
    unfold sliceSettled.
    destruct (inFlight session) as [tiles|] eqn:Hfl; [|exact Hwf].
    unfold wellFormed. cbn.
    five_parts; eauto; discriminate.
Qed.

Lemma run_wellFormed (env : Browser num) (isSafari : bool) (events : list Event) :
  wellFormed (run env isSafari events).
Proof.
  unfold run.
  assert (Hinit : wellFormed (mkSession (initialState isSafari) None)).
  { unfold wellFormed. cbn.
    five_parts; eauto using tilesOfAPreset_nil; try discriminate;
      try contradiction.
    exists Grid3x3. reflexivity. }
  revert Hinit. generalize (mkSession (initialState isSafari) None).
  induction events as [|ev events IH]; intros session Hwf; [exact Hwf|].
  cbn [fold_left]. apply IH. now apply step_wellFormed.
Qed.

Lemma increasing_NoDup (tiles : list SliceResult) :
  StronglySorted (fun a b => index a < index b)%Z tiles ->
  NoDup (map index tiles).
Proof.
  induction 1 as [|t tiles Hsorted IH Hlt]; cbn [map]; constructor;
    [|exact IH].
  intros Hin. apply in_map_iff in Hin as (t' & Heq & Hin).
  rewrite Forall_forall in Hlt. specialize (Hlt t' Hin). lia.
Qed.

Lemma increasing_bounded_length (tiles : list SliceResult) (hi : Z) :
  StronglySorted (fun a b => index a < index b)%Z tiles ->
  forall lo : Z,
    (lo <= hi)%Z ->
    Forall (fun t => lo <= index t < hi)%Z tiles ->
    (len tiles <= hi - lo)%Z.
Proof.
  unfold len.
  induction 1 as [|t tiles Hsorted IH Hlt]; intros lo Hlo Hall;
    cbn [List.length]; [lia|].
  inversion Hall as [|t' tiles' Ht Htiles]; subst.
  assert (Hrest : (len tiles <= hi - (lo + 1))%Z).
  { apply IH; [lia|]. rewrite Forall_forall in *. intros t' Hin.
    specialize (Hlt t' Hin). specialize (Htiles t' Hin). lia. }
  unfold len in Hrest. lia.
Qed.

(** Starting a call and letting it settle at once is [handleSlice]. *)
Lemma sliceSettled_sliceStart (env : Browser num) (s : AppState num) :
  isSlicing s = false -> image s <> None -> getContext2d env = true ->
  app (sliceSettled (sliceStart env (mkSession s None))) = sliceClick env s.
Proof.
  intros Hidle Himg Hctx. unfold sliceStart, sliceClick. cbn [app].
  rewrite Hidle. destruct (image s) as [img|] eqn:Eimg; [|contradiction].
  rewrite Hctx. cbn [negb].
  unfold handleSlice. rewrite Eimg, Hctx. cbn [negb].
  rewrite sliceImage_collect. cbn [bind]. reflexivity.
Qed.

(** X18.  Whatever the user did - uploads, resets, grid buttons,
    settings, drags, slicing, in any order and with a slice call still
    running - the grid is one of the three the buttons offer, and while
    an image is shown the grid lines have exactly one boundary more than
    the grid has rows, and one more than it has columns: [handleSlice]
    scans rows x cols cells. *)
Theorem grid_lines_follow_the_selected_grid
        (env : Browser num) (isSafari : bool) (events : list Event) :
  let s := app (run env isSafari events) in
  (exists p, gridConfig s = presetConfig p) /\
  (image s <> None ->
   (len (horizontal (gridLines s)) - 1 = rows (gridConfig s))%Z /\
   (len (vertical (gridLines s)) - 1 = cols (gridConfig s))%Z).
Proof.
  cbv zeta.
  destruct (run_wellFormed env isSafari events) as (Hconfig & Hlines & _).
  split; [exact Hconfig|]. intros Himg. destruct (Hlines Himg). lia.
Qed.

(** X19.  In every state the component can reach, the tiles it holds
    have pairwise different indices - the React keys of the preview
    (line 115) are unique - there are at most 36 of them, and each has
    its row, its column below 6 and its index below 36. *)
Theorem tile_keys_stay_distinct
        (env : Browser num) (isSafari : bool) (events : list Event) :
  let s := app (run env isSafari events) in
  NoDup (tileKeys s) /\
  (len (slices s) <= 36)%Z /\
  Forall (fun t => (0 <= row t < 6)%Z /\ (0 <= col t < 6)%Z /\
                   (0 <= index t < 36)%Z) (slices s).
Proof.
  cbv zeta.
  destruct (run_wellFormed env isSafari events)
    as (_ & _ & _ & [Hsorted Hall] & _).
  split; [|split].
  - now apply increasing_NoDup.
  - apply (increasing_bounded_length _ 36 Hsorted 0); [lia|].
    eapply Forall_impl; [|exact Hall]. cbv beta. intros t Ht. lia.
  - exact Hall.
Qed.


(** X21.  A grid button starts over: with an image shown, the grid lines
    become the default ones of the button's grid - also when that grid
    was already selected, so boundaries the user dragged are lost - the
    tiles are discarded and the dirty flag is lowered, although the
    effect of lines 57-61 has just raised it. *)
Theorem grid_button_starts_over (s : AppState num) (p : Preset) :
  image s <> None ->
  let s' := presetClick p s in
  gridConfig s' = presetConfig p /\
  gridLines s' = {| horizontal := generateBoundaries (rows (presetConfig p));
                    vertical := generateBoundaries (cols (presetConfig p)) |} /\
  slices s' = [] /\ settingsDirty s' = false /\ image s' = image s.
Proof.
  intros Himg. cbv zeta. unfold presetClick.
  destruct (settingsEffect_keeps (setGridConfig s (presetConfig p)))
    as (Hi & Hc & _).
  destruct (image s) as [img|] eqn:Eimg; [|contradiction].
  rewrite (imageEffect_with_image _ img) by (rewrite Hi; exact Eimg).
  cbn [setSettingsDirty setSlices initializeGridLines setGridLines
       gridConfig gridLines slices settingsDirty image].
  rewrite Hc, Hi. cbn [setGridConfig gridConfig image]. now rewrite Eimg.
Qed.

(** X22.  Choosing a format, moving the quality slider or toggling web
    optimization never touches the image, the grid, the grid lines or
    the tiles; it can only raise the dirty flag, and only when there are
    tiles.  With tiles, the toggle always raises it, and so does a
    format other than the current one. *)
Theorem settings_only_raise_the_flag (s : AppState num) (f : Format) (q : num) :
  Forall (fun s' =>
            image s' = image s /\ gridConfig s' = gridConfig s /\
            gridLines s' = gridLines s /\ slices s' = slices s /\
            isSlicing s' = isSlicing s /\
            (settingsDirty s' = true ->
             settingsDirty s = true \/ slices s <> []))
         [formatClick f s; optimizeToggle s; qualityChange q s] /\
  (slices s <> [] ->
   settingsDirty (optimizeToggle s) = true /\
   (Format_eqb f (outputFormat s) = false ->
    settingsDirty (formatClick f s) = true)).
Proof.
  assert (Heffect : forall s0,
             image s0 = image s -> gridConfig s0 = gridConfig s ->
             gridLines s0 = gridLines s -> slices s0 = slices s ->
             isSlicing s0 = isSlicing s -> settingsDirty s0 = settingsDirty s ->
             let s' := settingsEffect s0 in
             image s' = image s /\ gridConfig s' = gridConfig s /\
             gridLines s' = gridLines s /\ slices s' = slices s /\
             isSlicing s' = isSlicing s /\
             (settingsDirty s' = true ->
              settingsDirty s = true \/ slices s <> [])).
  { intros s0 Hi Hc Hg Hs Hb Hd. cbv zeta.
    destruct (settingsEffect_keeps s0) as (Hi' & Hc' & Hg' & Hs' & Hd').
    rewrite Hi', Hc', Hg', Hs'. repeat split; auto.
    - unfold settingsEffect. now destruct (0 <? len (slices s0))%Z.
    - intros H. destruct (Hd' H) as [H'|H']; [left | right]; congruence. }
  assert (Hraised : forall s0 : AppState num,
             slices s0 <> [] -> settingsDirty (settingsEffect s0) = true).
  { intros s0 Hsome. unfold settingsEffect.
    destruct (slices s0) as [|t l] eqn:Hs; [contradiction|].
    unfold len. cbn [List.length].
    destruct (0 <? Z.of_nat (S (List.length l)))%Z eqn:Hlen;
      [reflexivity | apply Z.ltb_ge in Hlen; lia]. }
  split.
  - apply Forall_cons; [|apply Forall_cons; [|apply Forall_cons; [|constructor]]].
    + unfold formatClick. destruct (Format_eqb f (outputFormat s));
        [repeat split; auto | now apply Heffect].
    + now apply Heffect.
    + unfold qualityChange. destruct (Object_is q (quality s));
        [repeat split; auto | now apply Heffect].
  - intros Hsome. split.
    + now apply Hraised.
    + intros Hother. unfold formatClick. rewrite Hother. now apply Hraised.
Qed.

(** X23.  A slice call that settles after a grid button was clicked
    stores the tiles it computed from the grid lines of before the
    click: the session then shows those tiles next to the new default
    grid lines, with the dirty flag lowered. *)
Theorem late_tiles_survive_a_grid_button
        (env : Browser num) (session : Session) (tiles : list SliceResult)
        (p : Preset) :
  inFlight session = Some tiles -> image (app session) <> None ->
  let s' := app (step env SliceSettled (step env (PresetClick p) session)) in
  slices s' = tiles /\
  gridLines s' = {| horizontal := generateBoundaries (rows (presetConfig p));
                    vertical := generateBoundaries (cols (presetConfig p)) |} /\
  settingsDirty s' = false /\ isSlicing s' = false.
Proof.
  intros Hflight Himg. cbv zeta. cbn [step]. unfold sliceSettled, serve.
  cbn [inFlight app]. rewrite Hflight. cbv zeta. cbn [app].
  unfold presetClick.
  destruct (settingsEffect_keeps (setGridConfig (app session) (presetConfig p)))
    as (Hi & Hc & _).
  destruct (image (app session)) as [img|] eqn:Eimg; [|contradiction].
  rewrite (imageEffect_with_image _ img) by (rewrite Hi; exact Eimg).
  cbn [setSettingsDirty setSlices setIsSlicing initializeGridLines setGridLines
       gridConfig gridLines slices settingsDirty isSlicing].
  now rewrite Hc.
Qed.

(** The grid lines after an event: those of before, the default ones of
    a grid the buttons offer, or those of before with a pointer move
    applied. *)
Lemma step_gridLines (env : Browser num) (ev : Event) (session : Session) :
  wellFormed session ->
  let lines := gridLines (app session) in
  let lines' := gridLines (app (step env ev session)) in
  lines' = lines \/
  (exists p, lines' = {| horizontal := generateBoundaries (rows (presetConfig p));
                         vertical := generateBoundaries (cols (presetConfig p)) |}) \/
  (exists d rect e, lines' = GridEditor.handleMouseMove d rect lines e).
Proof.
  intros ([p0 Hp0] & _). cbv zeta.
  destruct ev as [img| |p|f| |q| |d rect e| |]; cbn [step serve app].
  - right. left. exists p0. unfold imageLoaded. cbv zeta.
    rewrite (imageEffect_with_image _ img) by reflexivity. cbn.
    now rewrite Hp0.
  - left. unfold resetClick. now rewrite imageEffect_without_image.
  - unfold presetClick.
    destruct (settingsEffect_keeps (setGridConfig (app session) (presetConfig p)))
      as (Hi & Hc & Hg & _).
    destruct (image (app session)) as [img|] eqn:Eimg.
    + right. left. exists p.
      rewrite (imageEffect_with_image _ img) by (rewrite Hi; exact Eimg).
      cbn. now rewrite Hc.
    + left. rewrite imageEffect_without_image by (rewrite Hi; exact Eimg).
      now rewrite Hg.
  - left. unfold formatClick.
    destruct (Format_eqb f (outputFormat (app session))); [reflexivity|].
    now destruct (settingsEffect_keeps (setOutputFormat (app session) f))
      as (_ & _ & -> & _).
  - left. unfold optimizeToggle.
    now destruct (settingsEffect_keeps
                    (setOptimizeResolution (app session)
                       (negb (optimizeResolution (app session)))))
      as (_ & _ & -> & _).
  - left. unfold qualityChange.
    destruct (Object_is q (quality (app session))); [reflexivity|].
    now destruct (settingsEffect_keeps (setQuality (app session) q))
      as (_ & _ & -> & _).
  - left. reflexivity.
  - right. right. exists d, rect, e. reflexivity.
  - left. unfold sliceStart. cbv zeta.
    destruct (isSlicing (app session)); [reflexivity|].
    now destruct (image (app session)).
  - left. unfold sliceSettled. now destruct (inFlight session).
Qed.

End Sessions.

Section Percentages.
Local Open Scope js_scope.

Lemma clamp_is_percentage (x : float) :
  percentage (Math_max (lit 0) (Math_min (lit 100) x)) = true.
Proof.
  unfold percentage. destruct (PrimFloat.is_nan x) eqn:Hnan.
  - cbn [Math_max Math_min binary64]. unfold Binary64.min. rewrite Hnan.
    rewrite orb_true_r. reflexivity.
  - destruct (Binary64Facts.clamp_range_binary64 x Hnan) as [Hlo Hhi].
    cbn [num_le binary64]. rewrite Hlo, Hhi. apply orb_true_r.
Qed.

Lemma forallb_mapi {A} (P : A -> bool) (f : A -> Z -> A) (arr : list A) :
  (forall a i, P a = true -> P (f a i) = true) ->
  forallb P arr = true -> forallb P (mapi f arr) = true.
Proof.
  intros Hf. unfold mapi. generalize 0%Z as k.
  induction arr as [|a arr IH]; intros k; [reflexivity|].
  cbn [mapi_from forallb]. intros Hall.
  apply andb_true_iff in Hall as [Ha Harr].
  now rewrite (Hf a k Ha), IH.
Qed.

Lemma handleMouseMove_onTheImage (d : option GridEditor.Dragging)
      (rect : option (GridEditor.DOMRect float)) (gl : GridLines float)
      (e : GridEditor.MouseEvent float) :
  onTheImage gl = true -> onTheImage (GridEditor.handleMouseMove d rect gl e) = true.
Proof.
  unfold onTheImage, GridEditor.handleMouseMove.
  destruct d as [d|], rect as [rect|]; try (intros H; exact H).
  rewrite !forallb_app, !andb_true_iff. intros [Hh Hv].
  assert (Hedit : forall value idx,
             percentage value = true ->
             forall (b : Boundary float) (i : Z),
               percentage (start b) && percentage (end_ b) = true ->
               (fun b => percentage (start b) && percentage (end_ b))
                 (if negb (i =? idx)%Z then b
                  else GridEditor.withSide b (GridEditor.side d) value) = true).
  { intros value idx Hvalue b i Hb. cbv beta.
    destruct (negb (i =? idx)%Z); [exact Hb|].
    apply andb_true_iff in Hb as [Hs He].
    destruct (GridEditor.side d); cbn [GridEditor.withSide start end_];
      now rewrite ?Hvalue, ?Hs, ?He. }
  cbn [horizontal vertical].
  destruct (GridEditor.type d); split; try assumption;
    apply forallb_mapi; try assumption;
    apply Hedit; apply clamp_is_percentage.
Qed.

Lemma default_lines_onTheImage (p : Preset) :
  onTheImage {| horizontal := generateBoundaries (rows (presetConfig p));
                vertical := generateBoundaries (cols (presetConfig p)) |} = true.
Proof. destruct p; vm_compute; reflexivity. Qed.

(** X24.  In binary64, as the program runs: in every state the component
    can reach, every boundary's start and end is a percentage from 0 to
    100, as [types.ts] documents them, or NaN.  (NaN is what the drag
    handler stores for a pointer position over a surface without width
    or height.) *)
Theorem boundaries_stay_percentages
        (env : Browser float) (isSafari : bool) (events : list Event) :
  onTheImage (gridLines (app (run env isSafari events))) = true.
Proof.
  unfold run.
  assert (Hinit : wellFormed (mkSession (initialState (num := float) isSafari) None)
                  /\ onTheImage (gridLines (app (mkSession (initialState isSafari) None)))
                     = true).
  { split; [exact (run_wellFormed env isSafari []) | reflexivity]. }
  revert Hinit. generalize (mkSession (initialState (num := float) isSafari) None).
  induction events as [|ev events IH]; intros session [Hwf Hon]; [exact Hon|].
  cbn [fold_left]. apply IH. split; [now apply step_wellFormed|].
  destruct (step_gridLines env ev session Hwf)
    as [-> | [[p ->] | (d & rect & e & ->)]].
  - exact Hon.
  - apply default_lines_onTheImage.
  - now apply handleMouseMove_onTheImage.
Qed.

End Percentages.

(* ================================================================== *)
(** * The further statements at concrete inputs *)

Section Instances.
Local Open Scope js_scope.

(** [downloadAll_files_the_payload] for a preview of one WebP tile. *)
Lemma downloadAll_files_the_payload_of_one_tile :
  let tile := mkSliceResult "data:image/webp;base64,AAAA" 0 0 0 in
  let props := SlicePreview.mkProps [tile] 1 webp in
  exists archive entry,
    SlicePreview.downloadAll false props = Some archive /\
    at_index (SlicePreview.entries archive) 0 = Some entry /\
    SlicePreview.name entry = "slice_1.webp"%string /\
    SlicePreview.data entry = Some "AAAA"%string.
Proof.
  cbv zeta.
  destruct (SlicePreview.downloadAll false
              (SlicePreview.mkProps
                 [mkSliceResult "data:image/webp;base64,AAAA" 0 0 0] 1 webp))
    as [archive|] eqn:Harchive; [|discriminate Harchive].
  destruct (downloadAll_files_the_payload _ archive 0
              (mkSliceResult "data:image/webp;base64,AAAA" 0 0 0)
              Harchive eq_refl)
    as (entry & Hentry & Hname & Hpayload & _).
  exists archive, entry. repeat split; try assumption.
  apply (Hpayload "data:image/webp;base64" "AAAA")%string; reflexivity.
Defined.

(** [handleMouseMove_different_scalars_commute] for the start of a
    horizontal boundary and the end of a vertical one. *)
Lemma handleMouseMove_different_scalars_commute_on_3x3 :
  let gl := gridLines Scenario.upload6608 in
  let d1 := GridEditor.mkDragging GridEditor.h 1 GridEditor.side_start in
  let d2 := GridEditor.mkDragging GridEditor.v 1 GridEditor.side_end in
  let e1 := GridEditor.mkMouseEvent (of_int 300) (of_int 200) in
  let e2 := GridEditor.mkMouseEvent (of_int 310) (of_int 500) in
  GridEditor.handleMouseMove (Some d2) (Some Scenario.surface)
    (GridEditor.handleMouseMove (Some d1) (Some Scenario.surface) gl e1) e2
  = GridEditor.handleMouseMove (Some d1) (Some Scenario.surface)
      (GridEditor.handleMouseMove (Some d2) (Some Scenario.surface) gl e2) e1.
Proof.
  apply handleMouseMove_different_scalars_commute. discriminate.
Defined.

(** [handleMouseMove_out_of_range_index] for boundary 7 of four. *)
Lemma handleMouseMove_out_of_range_index_7 :
  let gl := gridLines Scenario.upload6608 in
  let d := GridEditor.mkDragging GridEditor.h 7 GridEditor.side_start in
  GridEditor.handleMouseMove (Some d) (Some Scenario.surface) gl
    (GridEditor.mkMouseEvent (of_int 300) (of_int 200))
  = gl.
Proof.
  apply handleMouseMove_out_of_range_index. right. vm_compute. discriminate.
Defined.

(** [badge_shows_rows_twice] for the 1 x 5 grid: the badge reads 1x1. *)
Lemma badge_shows_rows_twice_for_five_verticals :
  GridEditorView.badge (gridLines (initializeGridLines Scenario.upload6608 1 5))
  = "1x1 Master Mode"%string.
Proof.
  apply (badge_shows_rows_twice Scenario.upload6608 1 5). lia.
Defined.

(** [tiles_are_ordered] in the run [Scenario.sliver]. *)
Lemma tiles_are_ordered_in_sliver :
  let tiles := slicesAfter (handleSlice Scenario.browser Scenario.sliver) in
  let numRows := (len (horizontal (gridLines Scenario.sliver)) - 1)%Z in
  let numCols := (len (vertical (gridLines Scenario.sliver)) - 1)%Z in
  StronglySorted
    (fun a b => row a * numCols + col a < row b * numCols + col b)%Z tiles /\
  StronglySorted (fun a b => index a < index b)%Z tiles /\
  Forall (fun t => (0 <= row t < numRows)%Z /\ (0 <= col t < numCols)%Z /\
                   (0 <= index t <= row t * numCols + col t)%Z) tiles.
Proof.
  apply (tiles_are_ordered Scenario.browser Scenario.sliver
                           (Scenario.photo 400 400)); reflexivity.
Defined.

(** [index_is_scan_position_when_nothing_is_skipped] for the default
    3 x 3 grid on a 6608 x 6608 image. *)
Lemma index_is_scan_position_on_default_3x3 :
  let s := Scenario.upload6608 in
  getContext2d Scenario.browser = true /\
  forall t, In t (slicesAfter (handleSlice Scenario.browser s)) ->
    index t = (row t * (len (vertical (gridLines s)) - 1) + col t)%Z.
Proof.
  split; [reflexivity|].
  apply (index_is_scan_position_when_nothing_is_skipped
           Scenario.browser Scenario.upload6608 (Scenario.photo 6608 6608));
    try reflexivity.
  intros cell Hcell. vm_compute in Hcell.
  repeat (destruct Hcell as [<-|Hcell]; [vm_compute; reflexivity|]).
  contradiction.
Defined.

(** [png_ignores_quality] in the run [Scenario.sliver], for quality 0.9
    instead of 0.6. *)
Lemma png_ignores_quality_in_sliver :
  slicesAfter (handleSlice Scenario.browser (setQuality Scenario.sliver (lit 0.9)))
  = slicesAfter (handleSlice Scenario.browser Scenario.sliver).
Proof. apply png_ignores_quality. reflexivity. Defined.

(** [archive_names_agree_with_tile_names] for the default 3 x 3 grid on a
    6608 x 6608 image, in a browser whose encoder never fails. *)
Lemma archive_names_agree_on_default_3x3 :
  let env := mkBrowser (num := float) true
               (fun _ mimeType _ => Some mimeType)
               (fun blob => ("data:" ++ blob ++ ";base64,AAAA")%string) in
  exists props archive,
    renderSlicePreview (sliceClick env Scenario.upload6608) = Some props /\
    SlicePreview.downloadAll false props = Some archive /\
    map SlicePreview.name (SlicePreview.entries archive)
    = map (fun tile => SlicePreview.link_download (SlicePreview.tileDownload tile))
          (SlicePreview.slices props).
Proof.
  cbv zeta.
  set (env := mkBrowser (num := float) true
                (fun _ mimeType _ => Some mimeType)
                (fun blob => ("data:" ++ blob ++ ";base64,AAAA")%string)).
  destruct (renderSlicePreview (sliceClick env Scenario.upload6608))
    as [props|] eqn:Hprops; [|vm_compute in Hprops; discriminate Hprops].
  destruct (SlicePreview.downloadAll false props)
    as [archive|] eqn:Harchive; [|discriminate Harchive].
  exists props, archive. split; [reflexivity|]. split; [exact Harchive|].
  apply (archive_names_agree_with_tile_names
           env Scenario.upload6608 (Scenario.photo 6608 6608) props archive);
    try reflexivity; try assumption.
  intros r c crop _ _. discriminate.
Defined.

(** [targetSize_scales_down_to_the_cap] for a 4000 x 3000 crop under
    the 1080 cap. *)
Lemma targetSize_scales_4000_3000_down_to_1080 :
  let target := targetSize (N := exactQ) true 4000 3000 in
  (Qmax (fst target) (snd target) == 1080)%Q /\
  (fst target < 4000)%Q /\ (snd target < 3000)%Q.
Proof.
  apply (ExactGeometry.targetSize_scales_down_to_the_cap true 4000 3000);
    [reflexivity | reflexivity | left; reflexivity].
Defined.

(** [crop_lies_inside_image] for the middle cell of the default 3 x 3
    grid on a 6608 x 6608 image. *)
Lemma crop_of_middle_cell_lies_inside_image :
  let gl := mkGridLines (generateBoundaries (N := exactQ) 3)
                        (generateBoundaries (N := exactQ) 3) in
  exists crop,
    cellCrop gl 6608%Q 6608%Q 1 1 = Some crop /\
    (0 <= xStartOrig crop /\ 0 <= yStartOrig crop /\
     0 <= sliceW crop /\ 0 <= sliceH crop /\
     xStartOrig crop + sliceW crop <= 6608 /\
     yStartOrig crop + sliceH crop <= 6608)%Q.
Proof.
  cbv zeta.
  destruct (cellCrop (mkGridLines (generateBoundaries (N := exactQ) 3)
                                  (generateBoundaries (N := exactQ) 3))
                     6608%Q 6608%Q 1 1) as [crop|] eqn:Hcrop;
    [|vm_compute in Hcrop; discriminate Hcrop].
  exists crop. split; [reflexivity|].
  apply (ExactGeometry.crop_lies_inside_image
           (mkGridLines (generateBoundaries (N := exactQ) 3)
                        (generateBoundaries (N := exactQ) 3))
           6608%Q 6608%Q 1 1 crop);
    [| discriminate | discriminate | exact Hcrop].
  intros b Hb. vm_compute in Hb.
  repeat (destruct Hb as [<-|Hb];
          [vm_compute; repeat split; intros H; discriminate H|]).
  contradiction.
Defined.

(** [default_boundaries_leave_positive_bands] at count = 6. *)
Lemma default_boundaries_leave_positive_bands_at_6 :
  (forall i b,
      at_index (generateBoundaries (N := exactQ) 6) i = Some b ->
      0 <= start b /\ start b < end_ b /\ end_ b <= 100)%Q /\
  (forall i lo hi,
      band (generateBoundaries (N := exactQ) 6) i = Some (lo, hi) ->
      (lo < hi)%Q).
Proof. apply (DefaultGrid.default_boundaries_leave_positive_bands 6). lia. Defined.

(** [default_grid_is_sliced_cell_by_cell] for the 1 x 5 grid on a
    1000 x 200 image, in a browser whose encoder never fails. *)
Lemma default_1x5_grid_is_sliced_cell_by_cell :
  let env := mkBrowser (num := Q) true (fun _ mimeType _ => Some mimeType)
                       (fun blob => blob) in
  let s0 := mkAppState (Some (mkImage 1000%Q 200%Q "photo")) (mkGridConfig 1 5)
                       (lit 0.6) webp true (mkGridLines [] []) [] false false
                       false in
  let tiles := slicesAfter (handleSlice env (initializeGridLines s0 1 5)) in
  (forall t, In t tiles -> index t = (row t * 5 + col t)%Z) /\
  ((forall canvas type quality, toBlob env canvas type quality <> None) ->
   map (fun t => (row t, col t)) tiles = cells 1 5).
Proof.
  apply (DefaultGrid.default_grid_is_sliced_cell_by_cell
           _ _ (mkImage 1000%Q 200%Q "photo") 1 5);
    try reflexivity; lia.
Defined.


(** [grid_button_starts_over] for a click on the 3 x 3 button while the
    3 x 3 grid is selected and a boundary has been dragged. *)
Lemma grid_button_starts_over_on_the_same_grid :
  let s := Scenario.drag GridEditor.h 1 GridEditor.side_start 400 300
                         Scenario.upload6608 in
  let s' := presetClick Grid3x3 s in
  gridConfig s' = presetConfig Grid3x3 /\
  gridLines s' = {| horizontal := generateBoundaries 3;
                    vertical := generateBoundaries 3 |} /\
  slices s' = [] /\ settingsDirty s' = false /\ image s' = image s.
Proof.
  apply (grid_button_starts_over
           (Scenario.drag GridEditor.h 1 GridEditor.side_start 400 300
                          Scenario.upload6608) Grid3x3).
  discriminate.
Defined.

(** [late_tiles_survive_a_grid_button] for a slicing of the default
    3 x 3 grid that settles after a click on the 1 x 5 button. *)
Lemma late_tiles_survive_the_1x5_button :
  let env := Scenario.browser in
  let session := sliceStart env (mkSession Scenario.upload6608 None) in
  let tiles := slicesAfter (handleSlice env Scenario.upload6608) in
  let s' := app (step env SliceSettled
                      (step env (PresetClick FiveVerticals) session)) in
  slices s' = tiles /\
  gridLines s' = {| horizontal := generateBoundaries 1;
                    vertical := generateBoundaries 5 |} /\
  settingsDirty s' = false /\ isSlicing s' = false.
Proof.
  apply (late_tiles_survive_a_grid_button
           Scenario.browser
           (sliceStart Scenario.browser (mkSession Scenario.upload6608 None))
           (slicesAfter (handleSlice Scenario.browser Scenario.upload6608))
           FiveVerticals);
    [vm_compute; reflexivity | discriminate].
Defined.

End Instances.
